(** * anomalib.cli.utils.installation

    A shallow embedding of [src/anomalib/cli/utils/installation.py]: the
    functions that decide which PyTorch build to install from the CUDA
    toolkit found on the host and the table of supported builds.

    Python strings are [string]s (their comparison is lexicographic on
    characters, as [String.compare]); the dict of supported builds is a
    [gmap]; [set] is a [gset]; exceptions and [warnings.warn] are threaded
    through the monad [M]. *)

From Stdlib Require Import String Ascii Bool List Arith Lia.
From Stdlib Require OrdersEx.
From stdpp Require Import base option list gmap strings fin_maps fin_sets.

Local Open Scope string_scope.
Local Open Scope list_scope.

(** ** Effects: warnings and exceptions *)

(** The calls of [warn] in the module, with the values their messages
    interpolate. *)
Inductive warning : Type :=
  | WarnMultipleTorchSpecs
      (* "requirements.txt contains. Please remove other versions ..." *)
  | WarnCudaVersionNotFound
      (* "Could not find cuda-version. Instead, the CPU version ..." *)
  | WarnCudaVersionBounded (installed lo hi used : string)
      (* "Installed CUDA version is v{..}. v{..} <= Supported ... <= v{..}" *)
  | WarnTorchVersionSelected (version : string).
      (* "Torch Version will be selected as {version}." *)

(** What the probe of CUDA lets through: [version.json] is read outside any
    [try], and of the [nvcc] step only an [OSError] is caught. *)
Inductive probe_failure : Type :=
  | VersionFileUnreadable
      (* open() on version.json raises (OSError, UnicodeDecodeError) *)
  | VersionFileNotJSON
      (* json.load raises JSONDecodeError *)
  | VersionFileMalformed
      (* the document or its "cuda" entry is no object, or "version" is no
         string: .get or .split raises AttributeError *)
  | NvccOutputUnreadable.
      (* reading the output of nvcc raises something that is no OSError *)

(** The exceptions the module raises or lets through. *)
Inductive exn : Type :=
  | MissingTorchRequirement
      (* ValueError "Could not find torch requirement. ..." *)
  | TorchVersionRequired
      (* ValueError "``torch_version`` must be provided when ..." *)
  | UnsupportedSpecifierShape (updated_specs : list string)
      (* ValueError "Requirement version can be a single value or a range..." *)
  | UnsupportedOS (system : string)
      (* RuntimeError "Unsupported OS: {system}" *)
  | KeyError (key : string)
      (* a dict indexed at a key it does not hold *)
  | EmptySequence
      (* ValueError of max() / min() on an empty sequence *)
  | IndexError
      (* a list indexed out of range *)
  | InvalidRequirement (text : string)
      (* Requirement.parse on a string that is no requirement *)
  | CudaProbeError (failure : probe_failure).
      (* an exception that escapes get_cuda_version *)

Inductive outcome (A : Type) : Type :=
  | Return (a : A)
  | Raise (e : exn).
Arguments Return {A} a.
Arguments Raise {A} e.

(** A computation emits warnings, in order, and returns or raises. *)
Definition M (A : Type) : Type := (list warning * outcome A)%type.

Definition ret {A} (a : A) : M A := ([], Return a).
Definition raise {A} (e : exn) : M A := ([], Raise e).
Definition warn (w : warning) : M unit := ([w], Return tt).

Definition bind {A B} (c : M A) (k : A -> M B) : M B :=
  match c with
  | (ws, Return a) => let '(ws', r) := k a in (ws ++ ws', r)
  | (ws, Raise e) => (ws, Raise e)
  end.

Declare Scope py_scope.
Delimit Scope py_scope with py.
Notation "'let!' x ':=' c 'in' k" := (bind c (fun x => k))
  (at level 10, x pattern, c at level 100, k at level 200) : py_scope.
Local Open Scope py_scope.

Definition result {A} (c : M A) : outcome A := snd c.

(** ** Python built-ins on strings *)

(** Truth value of a [str | None]: [None] and the empty string are false. *)
Definition truthy (o : option string) : bool :=
  match o with
  | Some s => negb (String.eqb s "")
  | None => false
  end.

(** [a < b] on [str]. *)
Definition str_lt (a b : string) : bool := String.ltb a b.
(** [a <= b] on [str]. *)
Definition str_le (a b : string) : bool := String.leb a b.

(** [max(a, b)]: the first argument unless the second is greater. *)
Definition py_max2 (a b : string) : string := if str_lt a b then b else a.
(** [min(a, b)]: the first argument unless the second is smaller. *)
Definition py_min2 (a b : string) : string := if str_lt b a then b else a.

(** [max(iterable)] and [min(iterable)]; [None] stands for the ValueError
    on an empty iterable. *)
Definition py_max (l : list string) : option string :=
  match l with
  | [] => None
  | x :: t => Some (fold_left py_max2 t x)
  end.
Definition py_min (l : list string) : option string :=
  match l with
  | [] => None
  | x :: t => Some (fold_left py_min2 t x)
  end.

(** [s.startswith(p)]. *)
Definition startswith (s p : string) : bool := String.prefix p s.

(** [sub in s] on [str]. *)
Fixpoint str_contains (sub s : string) : bool :=
  String.prefix sub s ||
  match s with
  | EmptyString => false
  | String _ t => str_contains sub t
  end.

(** [s.replace(old, new)] for a non-empty [old]: scan from the left, and
    after a match skip the characters of [old]. *)
Fixpoint replace_from (old new : string) (skip : nat) (s : string) : string :=
  match s with
  | EmptyString => EmptyString
  | String c rest =>
      match skip with
      | S k => replace_from old new k rest
      | O =>
          if String.prefix old s
          then new +:+ replace_from old new (String.length old - 1) rest
          else String c (replace_from old new 0 rest)
      end
  end.

(** With an empty [old], [new] is put before every character and at the end. *)
Fixpoint replace_empty (new s : string) : string :=
  match s with
  | EmptyString => new
  | String c rest => new +:+ String c (replace_empty new rest)
  end.

Definition py_replace (s old new : string) : string :=
  if String.eqb old "" then replace_empty new s else replace_from old new 0 s.

(** ** The table of supported builds *)

Record torch_build : Type := {
  torchvision : string;
  cuda : list string
}.

(** The dict literal, in the order it is written. *)
Definition AVAILABLE_TORCH_VERSIONS_items : list (string * torch_build) :=
  [ ("2.0.0", {| torchvision := "0.15.1"; cuda := ["11.7"; "11.8"] |});
    ("2.0.1", {| torchvision := "0.15.2"; cuda := ["11.7"; "11.8"] |});
    ("2.1.1", {| torchvision := "0.16.1"; cuda := ["11.8"; "12.1"] |});
    ("2.1.2", {| torchvision := "0.16.2"; cuda := ["11.8"; "12.1"] |});
    ("2.2.0", {| torchvision := "0.16.2"; cuda := ["11.8"; "12.1"] |}) ].

Definition AVAILABLE_TORCH_VERSIONS : gmap string torch_build :=
  list_to_map AVAILABLE_TORCH_VERSIONS_items.

(** [AVAILABLE_TORCH_VERSIONS.keys()]. *)
Definition AVAILABLE_TORCH_VERSIONS_keys : list string :=
  AVAILABLE_TORCH_VERSIONS_items.*1.

(** [d[key]] for a dict. *)
Definition dict_get {V} (d : gmap string V) (key : string) : M V :=
  match d !! key with
  | Some v => ret v
  | None => raise (KeyError key)
  end.

Definition of_option {A} (o : option A) (e : exn) : M A :=
  match o with
  | Some a => ret a
  | None => raise e
  end.

(** ** Version negotiation *)

Definition update_cuda_version_with_available_torch_cuda_build
    (cuda_version torch_version : string) : M string :=
  let! entry := dict_get AVAILABLE_TORCH_VERSIONS torch_version in
  let! max_supported_cuda := of_option (py_max (cuda entry)) EmptySequence in
  let! entry' := dict_get AVAILABLE_TORCH_VERSIONS torch_version in
  let! min_supported_cuda := of_option (py_min (cuda entry')) EmptySequence in
  let bounded_cuda_version :=
    py_max2 (py_min2 cuda_version max_supported_cuda) min_supported_cuda in
  if negb (String.eqb cuda_version bounded_cuda_version)
  then
    let! _ := warn (WarnCudaVersionBounded cuda_version min_supported_cuda
                      max_supported_cuda bounded_cuda_version) in
    ret bounded_cuda_version
  else ret cuda_version.

(** ** Suffix derivation *)

Definition get_cuda_suffix (cuda_version : string) : string :=
  "cu" +:+ py_replace cuda_version "." "".


(** ** Accelerator detection *)

(** What the probe of the host finds: the [version.json] of [$CUDA_HOME] or
    the output of [nvcc --version] names a version, or neither does, or
    running [nvcc] fails with an [OSError], which is caught, or the probe
    raises an exception that is not caught. *)
Inductive cuda_probe : Type :=
  | CudaFound (version : string)
  | CudaNotFound
  | CudaProbeFailed
  | CudaProbeRaised (failure : probe_failure).

(** The host the module runs on: the outcome of the CUDA probe and the value
    of [platform.system()]. *)
Record host : Type := {
  cuda_probe_result : cuda_probe;
  platform_system : string
}.

Definition get_cuda_version (h : host) : M (option string) :=
  match cuda_probe_result h with
  | CudaFound v => ret (Some v)
  | CudaNotFound => ret None
  | CudaProbeFailed => let! _ := warn WarnCudaVersionNotFound in ret None
  | CudaProbeRaised failure => raise (CudaProbeError failure)
  end.

Definition get_hardware_suffix (h : host)
    (with_available_torch_build : bool) (torch_version : option string)
    : M string :=
  let! cuda_version := get_cuda_version h in
  match cuda_version with
  | Some cuda_version' =>
      if truthy cuda_version
      then
        let! cuda_version'' :=
          if with_available_torch_build
          then
            match torch_version with
            | None => raise TorchVersionRequired
            | Some torch_version' =>
                update_cuda_version_with_available_torch_cuda_build
                  cuda_version' torch_version'
            end
          else ret cuda_version' in
        ret (get_cuda_suffix cuda_version'')
      else ret "cpu"
  | None => ret "cpu"
  end.

(** ** Requirements *)

(** A [pkg_resources.Requirement]: its name, its [(operator, version)]
    pairs, and what [str] prints after the name (extras, specifiers,
    marker). *)
Record Requirement : Type := {
  unsafe_name : string;
  specs : list (string * string);
  str_tail : string
}.

(** [str(requirement)]: the name comes first. *)
Definition Requirement_str (r : Requirement) : string :=
  unsafe_name r +:+ str_tail r.

(** [list(set(l))]. *)
Definition list_of_set (l : list string) : list string :=
  elements (list_to_set l : gset string).

(** The loop of [parse_requirements], with its two variables. *)
Fixpoint parse_requirements_loop (requirements : list Requirement)
    (torch_requirement : option string) (other_requirements : list string)
    : M (option string * list string) :=
  match requirements with
  | [] => ret (torch_requirement, other_requirements)
  | requirement :: rest =>
      if String.eqb (unsafe_name requirement) "torch"
      then
        let! _ :=
          if Nat.ltb 1 (List.length (specs requirement))
          then warn WarnMultipleTorchSpecs
          else ret tt in
        parse_requirements_loop rest (Some (Requirement_str requirement))
          other_requirements
      else
        parse_requirements_loop rest torch_requirement
          (other_requirements ++ [Requirement_str requirement])
  end.

Definition parse_requirements (requirements : list Requirement)
    (skip_torch : bool) : M (option string * list string) :=
  let! (torch_requirement, other_requirements) :=
    parse_requirements_loop requirements None [] in
  if negb skip_torch && negb (truthy torch_requirement)
  then raise MissingTorchRequirement
  else ret (torch_requirement, list_of_set other_requirements).

(** ** Specifiers and installer arguments *)

(** The version of one constraint after the suffix is added; versions of the
    2.1 and 2.2 series are left as they are. *)
Definition updated_version (version hardware_suffix : string) : string :=
  if negb (startswith version "2.1" || startswith version "2.2")
  then version +:+ "+" +:+ hardware_suffix
  else version.

(** The loop of [add_hardware_suffix_to_torch]: [hardware_suffix] is
    resolved at the first constraint that finds it empty. *)
Fixpoint add_hardware_suffix_loop (h : host)
    (specs : list (string * string)) (hardware_suffix : option string)
    (with_available_torch_build : bool) (updated_specs : list string)
    : M (list string) :=
  match specs with
  | [] => ret updated_specs
  | (operator, version) :: rest =>
      let! hardware_suffix' :=
        match hardware_suffix with
        | Some s =>
            if truthy hardware_suffix then ret s
            else get_hardware_suffix h with_available_torch_build (Some version)
        | None =>
            get_hardware_suffix h with_available_torch_build (Some version)
        end in
      add_hardware_suffix_loop h rest (Some hardware_suffix')
        with_available_torch_build
        (updated_specs ++ [operator +:+ updated_version version hardware_suffix'])
  end.

Definition add_hardware_suffix_to_torch (h : host) (requirement : Requirement)
    (hardware_suffix : option string) (with_available_torch_build : bool)
    : M string :=
  let name := unsafe_name requirement in
  let! updated_specs :=
    add_hardware_suffix_loop h (specs requirement) hardware_suffix
      with_available_torch_build [] in
  match updated_specs with
  | [] => ret ""
  | [s0] => ret (name +:+ s0)
  | [s0; s1] => ret (name +:+ s0 +:+ ", " +:+ s1)
  | _ => raise (UnsupportedSpecifierShape updated_specs)
  end.

(** The index of the first constraint whose operator holds an ["="], and 0
    when there is none. *)
Fixpoint select_spec_from (specs : list (string * string)) (i : nat) : nat :=
  match specs with
  | [] => 0
  | spec :: rest =>
      if str_contains "=" (fst spec) then i else select_spec_from rest (S i)
  end.

Definition select_spec_idx (specs : list (string * string)) : nat :=
  select_spec_from specs 0.

(** [x in (a, b)] on strings. *)
Definition in_pair (x a b : string) : bool := String.eqb x a || String.eqb x b.

(** The branch on [platform.system()], once the operator and the framework
    version are chosen. *)
Definition install_args_for_version (h : host) (requirement : Requirement)
    (operator version : string) : M (list string) :=
  if in_pair (platform_system h) "Linux" "Windows"
  then
    let! hardware_suffix := get_hardware_suffix h true (Some version) in
    let index_url := "https://download.pytorch.org/whl/" +:+ hardware_suffix in
    let! torch_version :=
      add_hardware_suffix_to_torch h requirement (Some hardware_suffix) true in
    let! entry := dict_get AVAILABLE_TORCH_VERSIONS version in
    let torchvision_version := torchvision entry in
    let torchvision_requirement :=
      "torchvision" +:+ operator +:+ torchvision_version in
    let torchvision_requirement :=
      if negb (startswith torchvision_version "0.16")
      then torchvision_requirement +:+ "+" +:+ hardware_suffix
      else torchvision_requirement in
    ret ["--extra-index-url"; index_url; torch_version;
         torchvision_requirement]
  else if in_pair (platform_system h) "macos" "Darwin"
  then ret [Requirement_str requirement]
  else raise (UnsupportedOS (platform_system h)).

Section InstallArgs.

(** [Requirement.parse] of pkg_resources; [None] when it raises. *)
Variable Requirement_parse : string -> option Requirement.

Definition get_torch_install_args (h : host)
    (requirement : string + Requirement) : M (list string) :=
  let! requirement :=
    match requirement with
    | inl text => of_option (Requirement_parse text) (InvalidRequirement text)
    | inr r => ret r
    end in
  if Nat.ltb (List.length (specs requirement)) 1
  then ret [Requirement_str requirement]
  else
    let! (operator, version) :=
      of_option (specs requirement !! select_spec_idx (specs requirement))
        IndexError in
    let! version :=
      match AVAILABLE_TORCH_VERSIONS !! version with
      | Some _ => ret version
      | None =>
          let! version := of_option (py_max AVAILABLE_TORCH_VERSIONS_keys)
                            EmptySequence in
          let! _ := warn (WarnTorchVersionSelected version) in
          ret version
      end in
    install_args_for_version h requirement operator version.

End InstallArgs.

(** ** The probe of the host, in detail *)

(** [s.split(sep)] for a separator of one character. *)
Fixpoint split_on (sep : ascii) (s : string) : list string :=
  match s with
  | EmptyString => [EmptyString]
  | String a rest =>
      if Ascii.eqb a sep then EmptyString :: split_on sep rest
      else
        match split_on sep rest with
        | [] => [String a EmptyString]
        | part :: parts => String a part :: parts
        end
  end.

(** [sep.join(parts)]. *)
Fixpoint py_join (sep : string) (parts : list string) : string :=
  match parts with
  | [] => EmptyString
  | [part] => part
  | part :: rest => part +:+ sep +:+ py_join sep rest
  end.

(** What reading [$CUDA_HOME/version.json] gives. *)
Inductive version_json_outcome : Type :=
  | VersionJsonAbsent
      (* $CUDA_HOME does not exist or holds no file version.json *)
  | VersionJsonRaised (failure : probe_failure)
      (* opening, loading or reading the document raises *)
  | VersionJsonNoVersion
      (* data.get("cuda", {}).get("version", None) is None *)
  | VersionJsonVersion (cuda_version : string).
      (* data["cuda"]["version"], a string *)

(** What running [nvcc --version] gives. *)
Inductive nvcc_outcome : Type :=
  | NvccOSError
      (* os.popen or read raises OSError *)
  | NvccRaised (failure : probe_failure)
      (* reading the output raises something else *)
  | NvccNoMatch
      (* no match of cuda_(\d+\.\d+) in the output *)
  | NvccVersion (version : string).
      (* group 1 of the first match *)

(** What [get_cuda_version] reads on the host. *)
Record cuda_env : Type := {
  version_json : version_json_outcome;
  nvcc : nvcc_outcome
}.

(** [data["cuda"]["version"]] of [version.json], when the file is read and
    names one. *)
Definition version_json_cuda_version (env : cuda_env) : option string :=
  match version_json env with
  | VersionJsonVersion cuda_version => Some cuda_version
  | _ => None
  end.

(** [".".join(cuda_version.split(".")[:2])]. *)
Definition major_minor (cuda_version : string) : string :=
  py_join "." (take 2 (split_on "." cuda_version)).

(** The outcome of the probe: [version.json] first, then [nvcc]. *)
Definition probe_cuda (env : cuda_env) : cuda_probe :=
  match version_json env with
  | VersionJsonVersion cuda_version => CudaFound (major_minor cuda_version)
  | VersionJsonRaised failure => CudaProbeRaised failure
  | VersionJsonAbsent | VersionJsonNoVersion =>
      match nvcc env with
      | NvccVersion version => CudaFound version
      | NvccNoMatch => CudaNotFound
      | NvccOSError => CudaProbeFailed
      | NvccRaised failure => CudaProbeRaised failure
      end
  end.

(** The number of occurrences of a character. *)
Fixpoint count_char (c : ascii) (s : string) : nat :=
  match s with
  | EmptyString => 0
  | String a rest => (if Ascii.eqb a c then 1 else 0) + count_char c rest
  end.

(** ** Reading the requirement files *)

(** What stops [get_requirements]: a file that cannot be opened, or a line
    that [Requirement.parse] refuses. *)
Inductive requirements_error : Type :=
  | OpenFailed (path : string)
  | ParseFailed (package : string).

(** [f"requirements/{requirement_file}.txt"]. *)
Definition requirement_path (requirement_file : string) : string :=
  "requirements/" +:+ requirement_file +:+ ".txt".

Section GetRequirements.

(** [str.strip] and [Requirement.parse]; the lines of the file at a path,
    [None] when it cannot be opened. *)
Variable strip : string -> string.
Variable Requirement_parse : string -> option Requirement.
Variable file_lines : string -> option (list string).

(** A stripped line that is kept: not empty, no comment, no [-f] option. *)
Definition is_package (package : string) : bool :=
  truthy (Some package) &&
  negb (startswith package "#" || startswith package "-f").

(** The loop over the lines of one file. *)
Fixpoint read_packages (lines : list string)
    (required_packages : list Requirement)
    : requirements_error + list Requirement :=
  match lines with
  | [] => inr required_packages
  | line :: rest =>
      let package := strip line in
      if is_package package
      then
        match Requirement_parse package with
        | Some requirement =>
            read_packages rest (required_packages ++ [requirement])
        | None => inl (ParseFailed package)
        end
      else read_packages rest required_packages
  end.

(** The loop over the files. *)
Fixpoint get_requirements_loop (requirement_files : list string)
    (required_packages : list Requirement)
    : requirements_error + list Requirement :=
  match requirement_files with
  | [] => inr required_packages
  | requirement_file :: rest =>
      match file_lines (requirement_path requirement_file) with
      | None => inl (OpenFailed (requirement_path requirement_file))
      | Some lines =>
          match read_packages lines required_packages with
          | inr required_packages' =>
              get_requirements_loop rest required_packages'
          | inl e => inl e
          end
      end
  end.

Definition get_requirements (requirement_files : list string)
    : requirements_error + list Requirement :=
  get_requirements_loop requirement_files [].

(** The packages of a list of lines: the stripped lines that are kept. *)
Definition packages_of (lines : list string) : list string :=
  List.filter is_package (map strip lines).

End GetRequirements.

(** ** Definitions the statements use *)

(** The version with every occurrence of the character [c] removed. *)
Fixpoint remove_char (c : ascii) (s : string) : string :=
  match s with
  | EmptyString => EmptyString
  | String a rest =>
      if Ascii.eqb a c then remove_char c rest else String a (remove_char c rest)
  end.

(** Whether a requirement is the torch requirement. *)
Definition is_torch (r : Requirement) : bool :=
  String.eqb (unsafe_name r) "torch".

(** The strings of the requirements that are not torch, in input order. *)
Definition other_strings (rs : list Requirement) : list string :=
  map Requirement_str (List.filter (fun r => negb (is_torch r)) rs).

(** The specifiers the loop builds once the suffix is known. *)
Definition suffixed_specs (specs : list (string * string))
    (hardware_suffix : string) : list string :=
  map (fun spec => fst spec +:+ updated_version (snd spec) hardware_suffix)
      specs.

(** The torchvision specifier for an entry of the table. *)
Definition torchvision_requirement_for (operator : string)
    (entry : torch_build) (hardware_suffix : string) : string :=
  if negb (startswith (torchvision entry) "0.16")
  then ("torchvision" +:+ operator +:+ torchvision entry)
       +:+ "+" +:+ hardware_suffix
  else "torchvision" +:+ operator +:+ torchvision entry.

(** The version the function goes on with: the selected one when the table
    holds it, and 2.2.0 otherwise. *)
Definition effective_version (version : string) : string :=
  match AVAILABLE_TORCH_VERSIONS !! version with
  | Some _ => version
  | None => "2.2.0"
  end.

(** The warning of the substitution, given when the table does not hold the
    selected version. *)
Definition substitution_warnings (version : string) : list warning :=
  match AVAILABLE_TORCH_VERSIONS !! version with
  | Some _ => []
  | None => [WarnTorchVersionSelected "2.2.0"]
  end.

(** The strings of the torch requirements, in input order. *)
Definition torch_strings (rs : list Requirement) : list string :=
  map Requirement_str (List.filter is_torch rs).

(** The torch requirements that carry more than one constraint. *)
Definition multi_spec_torch (rs : list Requirement) : list Requirement :=
  List.filter (fun r => is_torch r && Nat.ltb 1 (List.length (specs r))) rs.

(** A result with the packages read before put in front. *)
Definition extend (acc : list Requirement)
    (x : requirements_error + list Requirement)
    : requirements_error + list Requirement :=
  match x with
  | inl e => inl e
  | inr rs => inr (acc ++ rs)
  end.

(** * Properties *)

(** ** The order on strings *)

Lemma str_lt_false_le (a b : string) : str_lt a b = false -> str_le b a = true.
Proof.
  unfold str_lt, str_le, String.ltb, String.leb.
  rewrite (String.compare_antisym a b).
  destruct (String.compare b a); simpl; congruence.
Qed.

Lemma str_lt_true_le (a b : string) : str_lt a b = true -> str_le a b = true.
Proof.
  unfold str_lt, str_le, String.ltb, String.leb.
  destruct (String.compare a b); congruence.
Qed.

Lemma str_le_refl (a : string) : str_le a a = true.
Proof.
  apply str_lt_false_le. unfold str_lt, String.ltb.
  pose proof (String.compare_antisym a a) as H.
  destruct (String.compare a a); simpl in H; congruence.
Qed.

(** Clamping with [max(min(c, hi), lo)] lands between the bounds. *)
Lemma clamp_between (lo hi c : string) :
  str_le lo hi = true ->
  str_le lo (py_max2 (py_min2 c hi) lo) = true /\
  str_le (py_max2 (py_min2 c hi) lo) hi = true.
Proof.
  intros Hlohi. unfold py_max2, py_min2.
  destruct (str_lt hi c) eqn:Hc.
  - destruct (str_lt hi lo) eqn:Hl.
    + split; [apply str_le_refl | assumption].
    + split; [now apply str_lt_false_le | apply str_le_refl].
  - destruct (str_lt c lo) eqn:Hl.
    + split; [apply str_le_refl | assumption].
    + split; now apply str_lt_false_le.
Qed.

(** ** The monad *)

Lemma bind_ret_l {A B} (a : A) (k : A -> M B) : bind (ret a) k = k a.
Proof. unfold bind, ret. now destruct (k a). Qed.

Lemma result_bind_return {A B} (c : M A) (k : A -> M B) (a : A) :
  result c = Return a -> result (bind c k) = result (k a).
Proof.
  destruct c as [ws r]. simpl. intros ->. simpl. now destruct (k a).
Qed.

Lemma result_bind_raise {A B} (c : M A) (k : A -> M B) (e : exn) :
  result c = Raise e -> result (bind c k) = Raise e.
Proof. destruct c as [ws r]. simpl. now intros ->. Qed.

(** ** Version negotiation *)

Lemma AVAILABLE_TORCH_VERSIONS_lookup (v : string) (entry : torch_build) :
  AVAILABLE_TORCH_VERSIONS !! v = Some entry ->
  In (v, entry) AVAILABLE_TORCH_VERSIONS_items.
Proof.
  intros H. apply list_elem_of_In.
  now apply elem_of_list_to_map_2.
Qed.

(** What the function returns, whatever the table holds for the version. *)
Lemma update_cuda_version_result (cuda_version torch_version : string)
    (entry : torch_build) (lo hi : string) :
  AVAILABLE_TORCH_VERSIONS !! torch_version = Some entry ->
  py_min (cuda entry) = Some lo ->
  py_max (cuda entry) = Some hi ->
  result (update_cuda_version_with_available_torch_cuda_build
            cuda_version torch_version)
  = Return (py_max2 (py_min2 cuda_version hi) lo).
Proof.
  intros Hentry Hlo Hhi.
  unfold update_cuda_version_with_available_torch_cuda_build, dict_get.
  rewrite Hentry, !bind_ret_l, Hhi. simpl of_option.
  rewrite !bind_ret_l, Hlo. simpl of_option. rewrite bind_ret_l.
  destruct (String.eqb cuda_version _) eqn:Heq; simpl.
  - apply String.eqb_eq in Heq. now rewrite <- Heq.
  - reflexivity.
Qed.

(** C1. For every torch version of the table and every CUDA version string,
    [update_cuda_version_with_available_torch_cuda_build] returns a version
    that lies, in the order of strings, between the minimum and the maximum
    of the CUDA versions the table gives for that torch version. *)
Theorem update_cuda_version_within_bounds
    (cuda_version torch_version : string) (entry : torch_build) :
  AVAILABLE_TORCH_VERSIONS !! torch_version = Some entry ->
  exists lo hi v,
    py_min (cuda entry) = Some lo /\
    py_max (cuda entry) = Some hi /\
    result (update_cuda_version_with_available_torch_cuda_build
              cuda_version torch_version) = Return v /\
    str_le lo v = true /\ str_le v hi = true.
Proof.
  intros Hentry.
  assert (Hb : exists lo hi,
             py_min (cuda entry) = Some lo /\ py_max (cuda entry) = Some hi /\
             str_le lo hi = true).
  { apply AVAILABLE_TORCH_VERSIONS_lookup in Hentry.
    unfold AVAILABLE_TORCH_VERSIONS_items in Hentry. simpl in Hentry.
    repeat (destruct Hentry as [Hentry | Hentry];
            [inversion Hentry; subst; simpl; eauto 6 |]).
    contradiction. }
  destruct Hb as (lo & hi & Hlo & Hhi & Hle).
  exists lo, hi, (py_max2 (py_min2 cuda_version hi) lo).
  repeat split; auto.
  - now apply update_cuda_version_result with (entry := entry).
  - now apply clamp_between.
  - now apply clamp_between.
Qed.

Lemma update_cuda_version_within_bounds_witness :
  exists lo hi v,
    py_min ["11.7"; "11.8"] = Some lo /\
    py_max ["11.7"; "11.8"] = Some hi /\
    result (update_cuda_version_with_available_torch_cuda_build
              "12.1" "2.0.1") = Return v /\
    str_le lo v = true /\ str_le v hi = true.
Proof.
  apply (update_cuda_version_within_bounds "12.1" "2.0.1"
           {| torchvision := "0.15.2"; cuda := ["11.7"; "11.8"] |}).
  reflexivity.
Defined.

(** ** Suffix derivation *)

Lemma prefix_single (c a : ascii) (rest : string) :
  String.prefix (String c EmptyString) (String a rest) = Ascii.eqb a c.
Proof.
  simpl. destruct (ascii_dec c a) as [-> | Hne].
  - rewrite Ascii.eqb_refl. now destruct rest.
  - symmetry. apply Ascii.eqb_neq. congruence.
Qed.

(** Replacing a one-character string by the empty string removes that
    character. *)
Lemma replace_single_char (c : ascii) (s : string) :
  py_replace s (String c EmptyString) "" = remove_char c s.
Proof.
  unfold py_replace. simpl String.eqb.
  induction s as [| a rest IH]; [reflexivity |].
  cbn [replace_from remove_char]. rewrite prefix_single.
  destruct (Ascii.eqb a c); simpl; now rewrite IH.
Qed.

(** C7. [get_cuda_suffix] returns ["cu"] followed by the version with its
    ["."] characters removed, and equal versions give equal suffixes. *)
Theorem get_cuda_suffix_spec (cuda_version cuda_version' : string) :
  get_cuda_suffix cuda_version = "cu" +:+ remove_char "." cuda_version /\
  (cuda_version = cuda_version' ->
   get_cuda_suffix cuda_version = get_cuda_suffix cuda_version').
Proof.
  split.
  - unfold get_cuda_suffix. now rewrite (replace_single_char ".").
  - now intros ->.
Qed.

Lemma get_cuda_suffix_spec_witness :
  get_cuda_suffix "11.8" = "cu118" /\
  get_cuda_suffix "11.8" = get_cuda_suffix "11.8".
Proof.
  destruct (get_cuda_suffix_spec "11.8" "11.8") as [H1 H2].
  split; [exact H1 | exact (H2 eq_refl)].
Defined.

(** The suffix of a CUDA build is never empty. *)
Lemma get_cuda_suffix_nonempty (cuda_version : string) :
  get_cuda_suffix cuda_version <> "".
Proof. unfold get_cuda_suffix. simpl. discriminate. Qed.

(** ** Accelerator detection *)

(** C4. When [get_cuda_version] finds no version, [get_hardware_suffix]
    returns ["cpu"], whatever its two arguments are, and warns of nothing
    more than the probe did. *)
Theorem get_hardware_suffix_cpu_fallback (h : host)
    (with_available_torch_build : bool) (torch_version : option string)
    (ws : list warning) :
  get_cuda_version h = (ws, Return None) ->
  get_hardware_suffix h with_available_torch_build torch_version
  = (ws, Return "cpu").
Proof.
  intros H. unfold get_hardware_suffix. rewrite H. simpl.
  now rewrite app_nil_r.
Qed.

Lemma get_hardware_suffix_cpu_fallback_witness :
  get_hardware_suffix
    {| cuda_probe_result := CudaProbeFailed; platform_system := "Linux" |}
    true (Some "2.0.1")
  = ([WarnCudaVersionNotFound], Return "cpu").
Proof.
  apply (get_hardware_suffix_cpu_fallback
           {| cuda_probe_result := CudaProbeFailed; platform_system := "Linux" |}
           true (Some "2.0.1") [WarnCudaVersionNotFound]).
  reflexivity.
Defined.

(** [get_hardware_suffix] returns a non-empty suffix whenever it returns. *)
Lemma get_hardware_suffix_nonempty (h : host) (w : bool)
    (torch_version : option string) (s : string) :
  result (get_hardware_suffix h w torch_version) = Return s -> s <> "".
Proof.
  unfold get_hardware_suffix, get_cuda_version.
  destruct (cuda_probe_result h) as [v | | | k]; simpl;
    try (intros [= <-]; discriminate).
  destruct (String.eqb v ""); simpl; [intros [= <-]; discriminate |].
  destruct w; simpl.
  - destruct torch_version as [tv |]; simpl; [| discriminate].
    destruct (update_cuda_version_with_available_torch_cuda_build v tv)
      as [ws [v' | e]]; simpl; [| discriminate].
    intros [= <-]. apply get_cuda_suffix_nonempty.
  - intros [= <-]. apply get_cuda_suffix_nonempty.
Qed.

(** ** Requirement parsing *)

Lemma torch_str_truthy (r : Requirement) :
  is_torch r = true -> truthy (Some (Requirement_str r)) = true.
Proof.
  unfold is_torch, Requirement_str. intros H.
  apply String.eqb_eq in H. now rewrite H.
Qed.

(** The loop returns, with the torch requirement set exactly when the list
    (or the initial value) provides one, and the other strings appended. *)
Lemma parse_requirements_loop_spec (rs : list Requirement) :
  forall (t : option string) (o : list string),
  exists ws t',
    parse_requirements_loop rs t o = (ws, Return (t', o ++ other_strings rs)) /\
    (truthy t' = true <->
     truthy t = true \/ Exists (fun r => unsafe_name r = "torch") rs).
Proof.
  induction rs as [| r rest IH]; intros t o.
  - exists [], t. split.
    + unfold other_strings. simpl. now rewrite app_nil_r.
    + rewrite Exists_nil. tauto.
  - cbn [parse_requirements_loop]. fold (is_torch r).
    destruct (is_torch r) eqn:Hr.
    + destruct (IH (Some (Requirement_str r)) o) as (ws & t' & Heq & Ht).
      exists ((if Nat.ltb 1 (List.length (specs r))
               then [WarnMultipleTorchSpecs] else []) ++ ws), t'.
      split.
      * rewrite Heq. unfold other_strings. cbn [List.filter]. rewrite Hr.
        now destruct (Nat.ltb 1 (List.length (specs r))).
      * rewrite Ht, Exists_cons, (torch_str_truthy r Hr).
        apply String.eqb_eq in Hr. tauto.
    + destruct (IH t (o ++ [Requirement_str r])) as (ws & t' & Heq & Ht).
      exists ws, t'. split.
      * rewrite Heq. unfold other_strings. cbn [List.filter]. rewrite Hr.
        simpl. now rewrite <- app_assoc.
      * rewrite Ht, Exists_cons.
        apply String.eqb_neq in Hr. tauto.
Qed.

(** How [parse_requirements] ends, from the torch requirement its loop
    found. *)
Lemma parse_requirements_spec (rs : list Requirement) (skip_torch : bool) :
  exists ws t,
    (truthy t = true <-> Exists (fun r => unsafe_name r = "torch") rs) /\
    parse_requirements rs skip_torch
    = (ws, if negb skip_torch && negb (truthy t)
           then Raise MissingTorchRequirement
           else Return (t, list_of_set (other_strings rs))).
Proof.
  destruct (parse_requirements_loop_spec rs None []) as (ws & t & Heq & Ht).
  exists ws, t. split.
  - rewrite Ht. simpl. intuition discriminate.
  - unfold parse_requirements. rewrite Heq. simpl.
    destruct (negb skip_torch && negb (truthy t)); simpl;
      now rewrite app_nil_r.
Qed.

(** C3. [parse_requirements] raises the error of the missing torch
    requirement exactly when [skip_torch] is false and no requirement of the
    list is named ["torch"]. *)
Theorem parse_requirements_raises_iff (requirements : list Requirement)
    (skip_torch : bool) :
  result (parse_requirements requirements skip_torch)
    = Raise MissingTorchRequirement
  <-> skip_torch = false /\
      Forall (fun r => unsafe_name r <> "torch") requirements.
Proof.
  destruct (parse_requirements_spec requirements skip_torch)
    as (ws & t & Ht & ->).
  unfold result. simpl.
  assert (Hneg : Forall (fun r => unsafe_name r <> "torch") requirements
                 <-> truthy t <> true).
  { rewrite Ht. apply Forall_Exists_neg. }
  rewrite Hneg.
  destruct skip_torch, (truthy t); simpl; intuition congruence.
Qed.

(** C10. When [parse_requirements] returns, its list of other requirements
    has no duplicates, holds the string of every requirement of the input
    that is not torch exactly once, and holds nothing else. *)
Theorem parse_requirements_others_unique (requirements : list Requirement)
    (skip_torch : bool) (ws : list warning) (torch_requirement : option string)
    (other_requirements : list string) :
  parse_requirements requirements skip_torch
    = (ws, Return (torch_requirement, other_requirements)) ->
  NoDup other_requirements /\
  (forall r, In r requirements -> unsafe_name r <> "torch" ->
     count_occ string_dec other_requirements (Requirement_str r) = 1) /\
  (forall s, In s other_requirements ->
     exists r, In r requirements /\ unsafe_name r <> "torch" /\
               s = Requirement_str r).
Proof.
  destruct (parse_requirements_spec requirements skip_torch)
    as (ws' & t & _ & ->).
  destruct (negb skip_torch && negb (truthy t)); [discriminate |].
  intros [= _ _ <-]. unfold list_of_set.
  assert (Hnodup : NoDup (elements (list_to_set (other_strings requirements)
                                    : gset string)))
    by apply NoDup_elements.
  assert (Hin : forall s,
             In s (elements (list_to_set (other_strings requirements)
                             : gset string))
             <-> In s (other_strings requirements)).
  { intros s. rewrite <- !list_elem_of_In, elem_of_elements.
    apply elem_of_list_to_set. }
  split; [exact Hnodup |]. split.
  - intros r Hr Hname.
    apply (proj1 (NoDup_count_occ' string_dec _)
             (proj1 (NoDup_ListNoDup _) Hnodup)).
    apply Hin. unfold other_strings. apply in_map, filter_In.
    split; [exact Hr |]. unfold is_torch.
    apply negb_true_iff, String.eqb_neq, Hname.
  - intros s Hs. apply Hin in Hs. unfold other_strings in Hs.
    apply in_map_iff in Hs. destruct Hs as (r & <- & Hr).
    apply filter_In in Hr. destruct Hr as [Hr Hname].
    exists r. repeat split; auto.
    unfold is_torch in Hname.
    apply negb_true_iff, String.eqb_neq in Hname. exact Hname.
Qed.

Lemma parse_requirements_others_unique_witness :
  let torch := {| unsafe_name := "torch"; specs := [("==", "2.0.1")];
                  str_tail := "==2.0.1" |} in
  let onnx := {| unsafe_name := "onnx"; specs := [(">=", "1.8.1")];
                 str_tail := ">=1.8.1" |} in
  NoDup ["onnx>=1.8.1"] /\
  (forall r, In r [onnx; torch; onnx] -> unsafe_name r <> "torch" ->
     count_occ string_dec ["onnx>=1.8.1"] (Requirement_str r) = 1) /\
  (forall s, In s ["onnx>=1.8.1"] ->
     exists r, In r [onnx; torch; onnx] /\ unsafe_name r <> "torch" /\
               s = Requirement_str r).
Proof.
  intros torch onnx.
  apply (parse_requirements_others_unique [onnx; torch; onnx] false []
           (Some "torch==2.0.1") ["onnx>=1.8.1"]).
  vm_compute. reflexivity.
Defined.

(** ** Specifiers *)

Lemma truthy_nonempty (s : string) : s <> "" -> truthy (Some s) = true.
Proof.
  intros H. unfold truthy. apply negb_true_iff. now apply String.eqb_neq.
Qed.

(** Given a non-empty suffix, the loop never probes the host. *)
Lemma add_hardware_suffix_loop_given (h : host) (w : bool) (hs : string)
    (specs : list (string * string)) :
  hs <> "" ->
  forall acc,
    add_hardware_suffix_loop h specs (Some hs) w acc
    = ([], Return (acc ++ suffixed_specs specs hs)).
Proof.
  intros Hhs. induction specs as [| [op v] rest IH]; intros acc.
  - simpl. now rewrite app_nil_r.
  - cbn [add_hardware_suffix_loop]. rewrite (truthy_nonempty hs Hhs).
    rewrite bind_ret_l, IH. simpl. now rewrite <- app_assoc.
Qed.

(** Whatever the suffix argument, a loop that returns has added one
    specifier per constraint. *)
Lemma add_hardware_suffix_loop_length (h : host) (w : bool)
    (specs : list (string * string)) :
  forall hs acc ws l,
    add_hardware_suffix_loop h specs hs w acc = (ws, Return l) ->
    List.length l = List.length acc + List.length specs.
Proof.
  induction specs as [| [op v] rest IH]; intros hs acc ws l.
  - simpl. intros [= _ <-]. lia.
  - cbn [add_hardware_suffix_loop].
    match goal with
    | |- bind ?c _ = _ -> _ => destruct c as [ws0 [s | e]]
    end; simpl; [| discriminate].
    destruct (add_hardware_suffix_loop h rest (Some s) w
                (acc ++ [op +:+ updated_version v s])) as [ws1 r1] eqn:Hl.
    intros [= _ ->]. apply IH in Hl.
    rewrite Hl, length_app. simpl. lia.
Qed.

(** With a suffix given, more than two constraints always end in the error
    of the specifier shape. *)
Lemma add_hardware_suffix_to_torch_shape_error (h : host) (r : Requirement)
    (hs : string) (w : bool) :
  hs <> "" ->
  2 < List.length (specs r) ->
  add_hardware_suffix_to_torch h r (Some hs) w
  = ([], Raise (UnsupportedSpecifierShape (suffixed_specs (specs r) hs))).
Proof.
  intros Hhs Hlen. unfold add_hardware_suffix_to_torch.
  rewrite (add_hardware_suffix_loop_given h w hs (specs r) Hhs). simpl.
  destruct (specs r) as [| s0 [| s1 [| s2 rest]]]; simpl in *; try lia.
  reflexivity.
Qed.

(** The probe of the suffix does not raise the error of the specifier
    shape. *)
Lemma get_hardware_suffix_no_shape_error (h : host) (w : bool)
    (torch_version : option string) (l : list string) :
  result (get_hardware_suffix h w torch_version)
  <> Raise (UnsupportedSpecifierShape l).
Proof.
  unfold get_hardware_suffix, get_cuda_version.
  destruct (cuda_probe_result h) as [cv | | | k]; simpl; try discriminate.
  destruct (String.eqb cv ""); simpl; [discriminate |].
  destruct w; simpl; [| discriminate].
  destruct torch_version as [v |]; simpl; [| discriminate].
  unfold update_cuda_version_with_available_torch_cuda_build, dict_get.
  destruct (AVAILABLE_TORCH_VERSIONS !! v) as [entry |];
    simpl; [| discriminate].
  destruct (py_max (cuda entry)); simpl; [| discriminate].
  destruct (py_min (cuda entry)); simpl; [| discriminate].
  match goal with |- context [negb ?b] => destruct b end;
    simpl; discriminate.
Qed.

Lemma add_hardware_suffix_loop_no_shape_error (h : host) (w : bool)
    (l : list string) (specs : list (string * string)) :
  forall hs acc,
    result (add_hardware_suffix_loop h specs hs w acc)
    <> Raise (UnsupportedSpecifierShape l).
Proof.
  induction specs as [| [op v] rest IH]; intros hs acc.
  - discriminate.
  - cbn [add_hardware_suffix_loop].
    match goal with
    | |- result (bind ?c _) <> _ => destruct c as [ws0 [s | e]] eqn:Hc
    end.
    + rewrite (result_bind_return _ _ s) by reflexivity. apply IH.
    + rewrite (result_bind_raise _ _ e) by reflexivity. intros [= ->].
      pose proof (get_hardware_suffix_no_shape_error h w (Some v) l) as Hs.
      destruct hs as [s' |]; [destruct (truthy (Some s')) |];
        first [discriminate | now rewrite Hc in Hs].
Qed.

(** X12. Up to two constraints never end in the error of the specifier
    shape, whatever the suffix argument, the flag and the host are. *)
Lemma add_hardware_suffix_to_torch_no_shape_error (h : host) (r : Requirement)
    (hs : option string) (w : bool) (l : list string) :
  List.length (specs r) <= 2 ->
  result (add_hardware_suffix_to_torch h r hs w)
  <> Raise (UnsupportedSpecifierShape l).
Proof.
  intros Hlen. unfold add_hardware_suffix_to_torch.
  destruct (add_hardware_suffix_loop h (specs r) hs w []) as [ws [us | e]]
    eqn:Hloop.
  - apply add_hardware_suffix_loop_length in Hloop. simpl in Hloop.
    destruct us as [| s0 [| s1 [| s2 rest]]]; simpl in *;
      try discriminate; lia.
  - simpl. intros [= ->].
    apply (add_hardware_suffix_loop_no_shape_error h w l (specs r) hs []).
    now rewrite Hloop.
Qed.

(** X13. More than two constraints end in the error of the specifier
    shape, unless no suffix was given and the probe of the suffix raised at
    the first constraint; the function then raises what the probe raised. *)
Lemma add_hardware_suffix_to_torch_many_specs (h : host) (r : Requirement)
    (hs : option string) (w : bool) :
  2 < List.length (specs r) ->
  (exists l, result (add_hardware_suffix_to_torch h r hs w)
             = Raise (UnsupportedSpecifierShape l)) \/
  (exists e op v rest,
      specs r = (op, v) :: rest /\ truthy hs = false /\
      result (get_hardware_suffix h w (Some v)) = Raise e /\
      result (add_hardware_suffix_to_torch h r hs w) = Raise e).
Proof.
  intros Hlen.
  destruct (truthy hs) eqn:Hhs.
  - left. destruct hs as [s |]; [| discriminate].
    assert (Hs : s <> "").
    { intros ->. discriminate. }
    eexists. now rewrite add_hardware_suffix_to_torch_shape_error.
  - unfold add_hardware_suffix_to_torch. cbv zeta.
    destruct (specs r) as [| [op v] rest] eqn:Hspecs; [simpl in Hlen; lia |].
    cbn [add_hardware_suffix_loop].
    assert (Hcall :
      match hs with
      | Some s => if truthy hs then ret s
                  else get_hardware_suffix h w (Some v)
      | None => get_hardware_suffix h w (Some v)
      end = get_hardware_suffix h w (Some v)).
    { destruct hs; [now rewrite Hhs | reflexivity]. }
    rewrite Hcall.
    destruct (get_hardware_suffix h w (Some v)) as [ws0 [s | e]] eqn:Hc.
    + left.
      assert (Hs : s <> "").
      { apply (get_hardware_suffix_nonempty h w (Some v)). now rewrite Hc. }
      destruct rest as [| s1 [| s2 rest']]; simpl in Hlen; try lia.
      eexists.
      erewrite result_bind_return; cycle 1.
      { rewrite (result_bind_return _ _ s) by reflexivity.
        now rewrite add_hardware_suffix_loop_given. }
      reflexivity.
    + right. exists e, op, v, rest.
      split; [reflexivity |]. split; [reflexivity |].
      split; [now rewrite Hc |].
      rewrite (result_bind_raise _ _ e); [reflexivity |].
      now rewrite (result_bind_raise _ _ e).
Qed.

(** C2. A requirement with three constraints whose versions the table does
    not hold, on a host with CUDA 11.8, no suffix given and
    [with_available_torch_build] set: the lookup of the first version in
    the table raises [KeyError] before the shape of the specifiers is
    looked at, so the error of the specifier shape is not the one raised. *)
Theorem add_hardware_suffix_to_torch_key_error :
  add_hardware_suffix_to_torch
    {| cuda_probe_result := CudaFound "11.8"; platform_system := "Linux" |}
    {| unsafe_name := "torch";
       specs := [(">=", "1.13.0"); ("<", "1.14.0"); ("!=", "1.13.5")];
       str_tail := "!=1.13.5,<1.14.0,>=1.13.0" |}
    None true
  = ([], Raise (KeyError "1.13.0")).
Proof. vm_compute. reflexivity. Qed.

(** Where the version is suffixed and where it is not. *)
Lemma updated_version_suffixed (version hs : string) :
  startswith version "2.1" = false -> startswith version "2.2" = false ->
  updated_version version hs = version +:+ "+" +:+ hs.
Proof. unfold updated_version. now intros -> ->. Qed.

Lemma updated_version_kept (version hs : string) :
  startswith version "2.1" = true \/ startswith version "2.2" = true ->
  updated_version version hs = version.
Proof.
  unfold updated_version. intros [-> | ->]; [reflexivity |].
  now rewrite orb_true_r.
Qed.

(** C6 (amended). For a requirement with one or two constraints and a
    non-empty suffix, the specifier is the name followed by the constraints,
    and ["+<suffix>"] is appended to every version that does not start with
    ["2.1"] or ["2.2"]; a version that does is left as it is. *)
Theorem add_hardware_suffix_to_torch_suffixes (h : host) (r : Requirement)
    (hs : string) (w : bool) :
  hs <> "" ->
  (forall o1 v1, specs r = [(o1, v1)] ->
     add_hardware_suffix_to_torch h r (Some hs) w
     = ([], Return (unsafe_name r +:+ o1 +:+ updated_version v1 hs))) /\
  (forall o1 v1 o2 v2, specs r = [(o1, v1); (o2, v2)] ->
     add_hardware_suffix_to_torch h r (Some hs) w
     = ([], Return (unsafe_name r +:+ (o1 +:+ updated_version v1 hs) +:+ ", "
                    +:+ (o2 +:+ updated_version v2 hs)))) /\
  (forall v, startswith v "2.1" = false -> startswith v "2.2" = false ->
     updated_version v hs = v +:+ "+" +:+ hs) /\
  (forall v, startswith v "2.1" = true \/ startswith v "2.2" = true ->
     updated_version v hs = v).
Proof.
  intros Hhs. repeat split.
  - intros o1 v1 Hspecs. unfold add_hardware_suffix_to_torch.
    rewrite (add_hardware_suffix_loop_given h w hs (specs r) Hhs), Hspecs.
    reflexivity.
  - intros o1 v1 o2 v2 Hspecs. unfold add_hardware_suffix_to_torch.
    rewrite (add_hardware_suffix_loop_given h w hs (specs r) Hhs), Hspecs.
    reflexivity.
  - intros v. apply updated_version_suffixed.
  - intros v. apply updated_version_kept.
Qed.

Lemma add_hardware_suffix_to_torch_suffixes_witness :
  add_hardware_suffix_to_torch
    {| cuda_probe_result := CudaNotFound; platform_system := "Linux" |}
    {| unsafe_name := "torch"; specs := [(">=", "1.13.0"); ("<=", "2.1.1")];
       str_tail := "<=2.1.1,>=1.13.0" |}
    (Some "cu121") false
  = ([], Return "torch>=1.13.0+cu121, <=2.1.1").
Proof.
  assert (Hhs : "cu121" <> "") by discriminate.
  destruct (add_hardware_suffix_to_torch_suffixes
              {| cuda_probe_result := CudaNotFound; platform_system := "Linux" |}
              {| unsafe_name := "torch";
                 specs := [(">=", "1.13.0"); ("<=", "2.1.1")];
                 str_tail := "<=2.1.1,>=1.13.0" |}
              "cu121" false Hhs) as (_ & H2 & _).
  exact (H2 ">=" "1.13.0" "<=" "2.1.1" eq_refl).
Defined.

(** C6, as it was stated, fails on a version of the 2.1 series: the
    specifier built for [torch==2.1.1] with the suffix ["cu118"] carries no
    suffix. *)
Lemma add_hardware_suffix_to_torch_suffix_counterexample :
  add_hardware_suffix_to_torch
    {| cuda_probe_result := CudaFound "11.8"; platform_system := "Linux" |}
    {| unsafe_name := "torch"; specs := [("==", "2.1.1")];
       str_tail := "==2.1.1" |}
    (Some "cu118") true
  = ([], Return "torch==2.1.1") /\
  "torch==2.1.1" <> "torch==2.1.1+cu118".
Proof. split; [vm_compute; reflexivity | discriminate]. Qed.

(** With a suffix given, the specifier is decided by the number of
    constraints alone. *)
Lemma add_hardware_suffix_to_torch_given (h : host) (r : Requirement)
    (hs : string) (w : bool) :
  hs <> "" ->
  add_hardware_suffix_to_torch h r (Some hs) w
  = ([], match suffixed_specs (specs r) hs with
         | [] => Return ""
         | [s0] => Return (unsafe_name r +:+ s0)
         | [s0; s1] => Return (unsafe_name r +:+ s0 +:+ ", " +:+ s1)
         | l => Raise (UnsupportedSpecifierShape l)
         end).
Proof.
  intros Hhs. unfold add_hardware_suffix_to_torch.
  rewrite (add_hardware_suffix_loop_given h w hs (specs r) Hhs). simpl.
  now destruct (suffixed_specs (specs r) hs) as [| s0 [| s1 [| s2 rest]]].
Qed.

(** ** Installer arguments *)

Lemma select_spec_from_range (specs : list (string * string)) :
  forall i,
    select_spec_from specs i = 0 \/
    exists k, select_spec_from specs i = i + k /\ k < List.length specs.
Proof.
  induction specs as [| spec rest IH]; intros i; [now left |].
  cbn [select_spec_from].
  destruct (str_contains "=" (fst spec)).
  - right. exists 0. simpl. split; lia.
  - destruct (IH (S i)) as [H0 | (k & Hk & Hlt)]; [now left |].
    right. exists (S k). simpl. split; lia.
Qed.

(** The chosen index is always inside a non-empty list of constraints. *)
Lemma select_spec_idx_lookup (specs : list (string * string)) :
  specs <> [] -> is_Some (specs !! select_spec_idx specs).
Proof.
  intros Hne. apply lookup_lt_is_Some. unfold select_spec_idx.
  destruct (select_spec_from_range specs 0) as [-> | (k & -> & Hlt)].
  - destruct specs; [contradiction | simpl; lia].
  - exact Hlt.
Qed.

Lemma in_pair_false (x a b : string) :
  x <> a -> x <> b -> in_pair x a b = false.
Proof.
  intros Ha Hb. unfold in_pair.
  apply String.eqb_neq in Ha, Hb. now rewrite Ha, Hb.
Qed.

(** The version the table does not hold is replaced by this one. *)
Lemma max_torch_version :
  py_max AVAILABLE_TORCH_VERSIONS_keys = Some "2.2.0".
Proof. reflexivity. Qed.

Lemma lookup_max_torch_version :
  AVAILABLE_TORCH_VERSIONS !! "2.2.0"
  = Some {| torchvision := "0.16.2"; cuda := ["11.8"; "12.1"] |}.
Proof. reflexivity. Qed.

(** For the newest version of the table the probe of the suffix returns a
    non-empty suffix, unless the probe of CUDA itself raises. *)
Lemma get_hardware_suffix_max_version (h : host) :
  (exists ws hs,
     get_hardware_suffix h true (Some "2.2.0") = (ws, Return hs) /\
     hs <> "") \/
  (exists failure,
     cuda_probe_result h = CudaProbeRaised failure /\
     get_hardware_suffix h true (Some "2.2.0")
     = ([], Raise (CudaProbeError failure))).
Proof.
  destruct (get_hardware_suffix h true (Some "2.2.0")) as [ws [hs | e]] eqn:H.
  - left. exists ws, hs. split; [reflexivity |].
    apply (get_hardware_suffix_nonempty h true (Some "2.2.0")).
    now rewrite H.
  - right. revert H. unfold get_hardware_suffix, get_cuda_version.
    destruct (cuda_probe_result h) as [cv | | | k]; simpl; try discriminate.
    + destruct (String.eqb cv ""); simpl; [discriminate |].
      unfold update_cuda_version_with_available_torch_cuda_build, dict_get.
      rewrite lookup_max_torch_version. simpl.
      match goal with |- context [negb ?b] => destruct b end;
        simpl; discriminate.
    + intros H. injection H as <- <-. eauto.
Qed.

Section InstallArgsFacts.

Variable Requirement_parse : string -> option Requirement.

(** A string that parses is handled as the requirement it parses to. *)
Lemma get_torch_install_args_parsed (h : host) (text : string)
    (r : Requirement) :
  Requirement_parse text = Some r ->
  get_torch_install_args Requirement_parse h (inl text)
  = get_torch_install_args Requirement_parse h (inr r).
Proof. intros H. unfold get_torch_install_args. now rewrite H. Qed.

(** With constraints, the function is the platform branch at the chosen
    operator and at the version the table holds or the substitute. *)
Lemma get_torch_install_args_selected (h : host) (r : Requirement)
    (operator version : string) :
  specs r !! select_spec_idx (specs r) = Some (operator, version) ->
  get_torch_install_args Requirement_parse h (inr r)
  = match AVAILABLE_TORCH_VERSIONS !! version with
    | Some _ => install_args_for_version h r operator version
    | None =>
        let! _ := warn (WarnTorchVersionSelected "2.2.0") in
        install_args_for_version h r operator "2.2.0"
    end.
Proof.
  intros Hsel. unfold get_torch_install_args. rewrite bind_ret_l.
  destruct (specs r) as [| spec rest] eqn:Hspecs; [discriminate |].
  cbn [List.length Nat.ltb Nat.leb]. rewrite Hsel.
  cbn [of_option]. rewrite bind_ret_l.
  destruct (AVAILABLE_TORCH_VERSIONS !! version).
  - now rewrite bind_ret_l.
  - change (py_max AVAILABLE_TORCH_VERSIONS_keys) with (Some "2.2.0").
    simpl of_option. rewrite !bind_ret_l.
    simpl. now destruct (install_args_for_version h r operator "2.2.0").
Qed.

(** C8. A requirement without constraints gives the one-element list of its
    string on every host: no index URL, no torchvision specifier, no
    warning and no error. *)
Theorem get_torch_install_args_no_specs (h : host) (r : Requirement) :
  specs r = [] ->
  get_torch_install_args Requirement_parse h (inr r)
  = ([], Return [Requirement_str r]).
Proof.
  intros H. unfold get_torch_install_args. rewrite bind_ret_l, H.
  reflexivity.
Qed.

(** C5 (amended). For a requirement with at least one constraint, on a host
    whose system is none of Linux, Windows, macos and Darwin,
    [get_torch_install_args] raises the error of the unsupported system. *)
Theorem get_torch_install_args_unsupported_os (h : host) (r : Requirement) :
  specs r <> [] ->
  platform_system h <> "Linux" -> platform_system h <> "Windows" ->
  platform_system h <> "macos" -> platform_system h <> "Darwin" ->
  result (get_torch_install_args Requirement_parse h (inr r))
  = Raise (UnsupportedOS (platform_system h)).
Proof.
  intros Hspecs Hl Hw Hm Hd.
  destruct (select_spec_idx_lookup (specs r) Hspecs) as [[op v] Hsel].
  rewrite (get_torch_install_args_selected h r op v Hsel).
  assert (Hbranch : forall version,
             install_args_for_version h r op version
             = ([], Raise (UnsupportedOS (platform_system h)))).
  { intros version. unfold install_args_for_version.
    now rewrite (in_pair_false _ _ _ Hl Hw), (in_pair_false _ _ _ Hm Hd). }
  destruct (AVAILABLE_TORCH_VERSIONS !! v); now rewrite Hbranch.
Qed.

(** On Linux and Windows, with the newest version of the table: what the
    probe of the suffix raises passes through; with a suffix, the arguments
    are the index URL, the torch specifier and torchvision 0.16.2 without
    suffix, or the error of the torch specifier. *)
Lemma install_args_for_max_version_linux (h : host) (r : Requirement)
    (operator : string) (ws : list warning) (o : outcome string) :
  in_pair (platform_system h) "Linux" "Windows" = true ->
  get_hardware_suffix h true (Some "2.2.0") = (ws, o) ->
  install_args_for_version h r operator "2.2.0"
  = (ws, match o with
         | Return hs =>
             match snd (add_hardware_suffix_to_torch h r (Some hs) true) with
             | Return tv =>
                 Return ["--extra-index-url";
                         "https://download.pytorch.org/whl/" +:+ hs; tv;
                         "torchvision" +:+ operator +:+ "0.16.2"]
             | Raise e => Raise e
             end
         | Raise e => Raise e
         end).
Proof.
  intros Hsys Hg.
  unfold install_args_for_version. rewrite Hsys, Hg.
  destruct o as [hs | e]; [| reflexivity].
  assert (Hhs : hs <> "").
  { apply (get_hardware_suffix_nonempty h true (Some "2.2.0")).
    now rewrite Hg. }
  unfold dict_get. rewrite lookup_max_torch_version.
  cbn [bind].
  rewrite (add_hardware_suffix_to_torch_given h r hs true Hhs).
  cbn [bind snd].
  destruct (suffixed_specs (specs r) hs) as [| s0 [| s1 [| s2 rest]]];
    cbn; now rewrite ?app_nil_r.
Qed.

(** C9 (amended). When the table does not hold the selected version, the
    lookup raises nothing: the function warns that version 2.2.0, the
    greatest key of the table, is selected, and goes on as it does for
    2.2.0, never raising a [KeyError]. On Linux and Windows, when the probe
    of the suffix for 2.2.0 returns and there are at most two constraints,
    it returns the index URL, the torch specifier and torchvision 0.16.2,
    built with that suffix; when the probe raises, the function raises the
    same; on macos and Darwin it returns the string of the requirement. *)
Theorem get_torch_install_args_unknown_version (h : host) (r : Requirement)
    (operator version : string) :
  specs r !! select_spec_idx (specs r) = Some (operator, version) ->
  AVAILABLE_TORCH_VERSIONS !! version = None ->
  py_max AVAILABLE_TORCH_VERSIONS_keys = Some "2.2.0" /\
  get_torch_install_args Requirement_parse h (inr r)
  = (let! _ := warn (WarnTorchVersionSelected "2.2.0") in
     install_args_for_version h r operator "2.2.0") /\
  (forall key,
     result (get_torch_install_args Requirement_parse h (inr r))
     <> Raise (KeyError key)) /\
  (in_pair (platform_system h) "Linux" "Windows" = true ->
   List.length (specs r) <= 2 ->
   forall ws hs,
     get_hardware_suffix h true (Some "2.2.0") = (ws, Return hs) ->
     exists tv,
       add_hardware_suffix_to_torch h r (Some hs) true = ([], Return tv) /\
       get_torch_install_args Requirement_parse h (inr r)
       = (WarnTorchVersionSelected "2.2.0" :: ws,
          Return ["--extra-index-url";
                  "https://download.pytorch.org/whl/" +:+ hs; tv;
                  "torchvision" +:+ operator +:+ "0.16.2"])) /\
  (in_pair (platform_system h) "Linux" "Windows" = true ->
   forall ws e,
     get_hardware_suffix h true (Some "2.2.0") = (ws, Raise e) ->
     get_torch_install_args Requirement_parse h (inr r)
     = (WarnTorchVersionSelected "2.2.0" :: ws, Raise e)) /\
  (in_pair (platform_system h) "Linux" "Windows" = false ->
   in_pair (platform_system h) "macos" "Darwin" = true ->
   get_torch_install_args Requirement_parse h (inr r)
   = ([WarnTorchVersionSelected "2.2.0"], Return [Requirement_str r])).
Proof.
  intros Hsel Hnone.
  pose proof (get_torch_install_args_selected h r operator version Hsel)
    as Heq.
  rewrite Hnone in Heq.
  split; [exact max_torch_version |]. split; [exact Heq |].
  rewrite Heq. split; [| split; [| split]].
  - intros key.
    destruct (in_pair (platform_system h) "Linux" "Windows") eqn:Hsys.
    + destruct (get_hardware_suffix_max_version h)
        as [(ws & hs & Hg & Hhs) | (k & _ & Hg)];
        rewrite (install_args_for_max_version_linux h r operator _ _ Hsys Hg).
      * rewrite (add_hardware_suffix_to_torch_given h r hs true Hhs).
        cbn [bind warn snd result].
        destruct (suffixed_specs (specs r) hs) as [| s0 [| s1 [| s2 rest]]];
          discriminate.
      * discriminate.
    + unfold install_args_for_version. rewrite Hsys.
      destruct (in_pair (platform_system h) "macos" "Darwin"); discriminate.
  - intros Hsys Hlen ws hs Hg.
    rewrite (install_args_for_max_version_linux h r operator _ _ Hsys Hg).
    assert (Hhs : hs <> "").
    { apply (get_hardware_suffix_nonempty h true (Some "2.2.0")).
      now rewrite Hg. }
    pose proof (add_hardware_suffix_to_torch_given h r hs true Hhs) as Ha.
    rewrite Ha.
    assert (Hlen' : List.length (suffixed_specs (specs r) hs) <= 2).
    { unfold suffixed_specs. now rewrite length_map. }
    destruct (suffixed_specs (specs r) hs) as [| s0 [| s1 [| s2 rest]]];
      simpl in Hlen'; try lia; eexists;
      (split; [reflexivity |]); reflexivity.
  - intros Hsys ws e Hg.
    now rewrite (install_args_for_max_version_linux h r operator _ _ Hsys Hg).
  - intros Hsys Hmac. unfold install_args_for_version.
    now rewrite Hsys, Hmac.
Qed.

End InstallArgsFacts.

Lemma get_torch_install_args_no_specs_witness :
  get_torch_install_args (fun _ => None)
    {| cuda_probe_result := CudaFound "12.1"; platform_system := "Linux" |}
    (inr {| unsafe_name := "torch"; specs := []; str_tail := "" |})
  = ([], Return ["torch"]).
Proof.
  apply (get_torch_install_args_no_specs (fun _ => None)
           {| cuda_probe_result := CudaFound "12.1";
              platform_system := "Linux" |}
           {| unsafe_name := "torch"; specs := []; str_tail := "" |}).
  reflexivity.
Defined.

Lemma get_torch_install_args_unsupported_os_witness :
  result
    (get_torch_install_args (fun _ => None)
       {| cuda_probe_result := CudaNotFound; platform_system := "FreeBSD" |}
       (inr {| unsafe_name := "torch"; specs := [("==", "2.0.1")];
               str_tail := "==2.0.1" |}))
  = Raise (UnsupportedOS "FreeBSD").
Proof.
  apply (get_torch_install_args_unsupported_os (fun _ => None)
           {| cuda_probe_result := CudaNotFound;
              platform_system := "FreeBSD" |}
           {| unsafe_name := "torch"; specs := [("==", "2.0.1")];
              str_tail := "==2.0.1" |});
    simpl; discriminate.
Defined.

(** C5, as it was stated, fails on a requirement without constraints: on a
    system that is none of the four, the function returns the string of the
    requirement and raises nothing. *)
Lemma get_torch_install_args_unsupported_os_counterexample :
  let h := {| cuda_probe_result := CudaNotFound;
              platform_system := "FreeBSD" |} in
  platform_system h <> "Linux" /\ platform_system h <> "Windows" /\
  platform_system h <> "macos" /\ platform_system h <> "Darwin" /\
  get_torch_install_args (fun _ => None) h
    (inr {| unsafe_name := "torch"; specs := []; str_tail := "" |})
  = ([], Return ["torch"]).
Proof. simpl. repeat split; try discriminate. Qed.

Lemma get_torch_install_args_unknown_version_witness :
  get_torch_install_args (fun _ => None)
    {| cuda_probe_result := CudaFound "12.1"; platform_system := "Linux" |}
    (inr {| unsafe_name := "torch";
            specs := [(">=", "1.13.0"); ("<=", "2.1.1")];
            str_tail := "<=2.1.1,>=1.13.0" |})
  = ([WarnTorchVersionSelected "2.2.0"],
     Return ["--extra-index-url"; "https://download.pytorch.org/whl/cu121";
             "torch>=1.13.0+cu121, <=2.1.1"; "torchvision>=0.16.2"]).
Proof.
  destruct (get_torch_install_args_unknown_version (fun _ => None)
              {| cuda_probe_result := CudaFound "12.1";
                 platform_system := "Linux" |}
              {| unsafe_name := "torch";
                 specs := [(">=", "1.13.0"); ("<=", "2.1.1")];
                 str_tail := "<=2.1.1,>=1.13.0" |}
              ">=" "1.13.0" eq_refl eq_refl) as (_ & H & _).
  exact H.
Defined.

(** C9, as it was stated, fails where the system is not supported: the
    version 1.13.0 is not in the table, 2.2.0 is selected with a warning,
    and the function then raises the error of the unsupported system. *)
Lemma get_torch_install_args_unknown_version_counterexample :
  AVAILABLE_TORCH_VERSIONS !! "1.13.0" = None /\
  get_torch_install_args (fun _ => None)
    {| cuda_probe_result := CudaFound "12.1"; platform_system := "FreeBSD" |}
    (inr {| unsafe_name := "torch"; specs := [("==", "1.13.0")];
            str_tail := "==1.13.0" |})
  = ([WarnTorchVersionSelected "2.2.0"], Raise (UnsupportedOS "FreeBSD")).
Proof. split; vm_compute; reflexivity. Qed.

(** * Further properties *)

(** ** The order on strings, continued *)

Lemma compare_as_OT (a b : string) :
  String.compare a b = OrdersEx.String_as_OT.compare a b.
Proof.
  revert b. induction a as [| x xs IH]; destruct b as [| y ys]; simpl.
  all: rewrite ?IH; reflexivity.
Qed.

Lemma str_lt_trans (a b c : string) :
  str_lt a b = true -> str_lt b c = true -> str_lt a c = true.
Proof.
  unfold str_lt, String.ltb.
  rewrite (compare_as_OT a b), (compare_as_OT b c), (compare_as_OT a c).
  intros H1 H2.
  destruct (OrdersEx.String_as_OT.compare a b) eqn:E1; try discriminate.
  destruct (OrdersEx.String_as_OT.compare b c) eqn:E2; try discriminate.
  assert (H : OrdersEx.String_as_OT.lt a c).
  { transitivity b; [exact E1 | exact E2]. }
  unfold OrdersEx.String_as_OT.lt in H. now rewrite H.
Qed.

Lemma str_le_negb_lt (a b : string) : str_le a b = negb (str_lt b a).
Proof.
  unfold str_lt, str_le, String.ltb, String.leb.
  rewrite (String.compare_antisym a b).
  now destruct (String.compare b a).
Qed.

Lemma str_lt_irrefl (a : string) : str_lt a a = false.
Proof.
  pose proof (str_le_refl a) as H. rewrite str_le_negb_lt in H.
  now apply negb_true_iff in H.
Qed.

Lemma str_le_lt_trans (a b c : string) :
  str_le a b = true -> str_lt b c = true -> str_lt a c = true.
Proof.
  intros Hab Hbc. destruct (str_lt a b) eqn:Hlt.
  - now apply str_lt_trans with b.
  - assert (a = b) as ->; [| exact Hbc].
    apply String.leb_antisym; [exact Hab |].
    now apply str_lt_false_le.
Qed.

Lemma str_lt_le_trans (a b c : string) :
  str_lt a b = true -> str_le b c = true -> str_lt a c = true.
Proof.
  intros Hab Hbc. destruct (str_lt b c) eqn:Hlt.
  - now apply str_lt_trans with b.
  - assert (b = c) as <-; [| exact Hab].
    apply String.leb_antisym; [exact Hbc |].
    now apply str_lt_false_le.
Qed.

Lemma str_le_trans (a b c : string) :
  str_le a b = true -> str_le b c = true -> str_le a c = true.
Proof.
  intros Hab Hbc. rewrite str_le_negb_lt. apply negb_true_iff.
  destruct (str_lt c a) eqn:Hca; [| reflexivity].
  pose proof (str_lt_le_trans c a b Hca Hab) as Hcb.
  rewrite str_le_negb_lt, Hcb in Hbc. discriminate.
Qed.

(** The three zones of the clamp. *)
Lemma clamp_cases (lo hi c : string) :
  str_le lo hi = true ->
  (str_lt c lo = true -> py_max2 (py_min2 c hi) lo = lo) /\
  (str_lt hi c = true -> py_max2 (py_min2 c hi) lo = hi) /\
  (str_le lo c = true -> str_le c hi = true ->
   py_max2 (py_min2 c hi) lo = c).
Proof.
  intros Hlohi. unfold py_max2, py_min2. repeat split.
  - intros Hc.
    assert (Hhc : str_lt hi c = false).
    { destruct (str_lt hi c) eqn:E; [| reflexivity].
      pose proof (str_lt_trans hi c lo E Hc) as H.
      rewrite str_le_negb_lt, H in Hlohi. discriminate. }
    now rewrite Hhc, Hc.
  - intros Hc. rewrite Hc.
    rewrite str_le_negb_lt in Hlohi. apply negb_true_iff in Hlohi.
    now rewrite Hlohi.
  - intros Hl Hh. rewrite str_le_negb_lt in Hl, Hh.
    apply negb_true_iff in Hl, Hh. now rewrite Hh, Hl.
Qed.

(** ** Version negotiation, continued *)

(** Every entry of the table has a least and a greatest CUDA version. *)
Lemma AVAILABLE_TORCH_VERSIONS_bounds (torch_version : string)
    (entry : torch_build) :
  AVAILABLE_TORCH_VERSIONS !! torch_version = Some entry ->
  exists lo hi,
    py_min (cuda entry) = Some lo /\ py_max (cuda entry) = Some hi /\
    str_le lo hi = true.
Proof.
  intros Hentry. apply AVAILABLE_TORCH_VERSIONS_lookup in Hentry.
  unfold AVAILABLE_TORCH_VERSIONS_items in Hentry. simpl in Hentry.
  repeat (destruct Hentry as [Hentry | Hentry];
          [inversion Hentry; subst; simpl; eauto 6 |]).
  contradiction.
Qed.

(** The value and the warning, for a version the table holds. *)
Lemma update_cuda_version_returns (cuda_version torch_version : string)
    (entry : torch_build) (lo hi : string) :
  AVAILABLE_TORCH_VERSIONS !! torch_version = Some entry ->
  py_min (cuda entry) = Some lo ->
  py_max (cuda entry) = Some hi ->
  let bounded := py_max2 (py_min2 cuda_version hi) lo in
  update_cuda_version_with_available_torch_cuda_build
    cuda_version torch_version
  = (if String.eqb cuda_version bounded then []
     else [WarnCudaVersionBounded cuda_version lo hi bounded],
     Return bounded).
Proof.
  intros Hentry Hlo Hhi bounded.
  unfold update_cuda_version_with_available_torch_cuda_build, dict_get.
  rewrite Hentry, !bind_ret_l, Hhi. cbn [of_option].
  rewrite !bind_ret_l, Hlo. cbn [of_option]. rewrite bind_ret_l.
  fold bounded.
  destruct (String.eqb cuda_version bounded) eqn:Heq; simpl.
  - apply String.eqb_eq in Heq. now rewrite <- Heq.
  - reflexivity.
Qed.

(** X1. The function raises exactly when the torch version is not a key of
    the table: it then raises the [KeyError] of that version before any
    warning, and it raises nothing else and in no other case. *)
Theorem update_cuda_version_raises_iff (cuda_version torch_version : string)
    (e : exn) :
  (result (update_cuda_version_with_available_torch_cuda_build
             cuda_version torch_version) = Raise e
   <-> AVAILABLE_TORCH_VERSIONS !! torch_version = None /\
       e = KeyError torch_version) /\
  (AVAILABLE_TORCH_VERSIONS !! torch_version = None ->
   update_cuda_version_with_available_torch_cuda_build
     cuda_version torch_version = ([], Raise (KeyError torch_version))).
Proof.
  destruct (AVAILABLE_TORCH_VERSIONS !! torch_version) as [entry |] eqn:Hentry.
  - destruct (AVAILABLE_TORCH_VERSIONS_bounds _ _ Hentry)
      as (lo & hi & Hlo & Hhi & _).
    rewrite (update_cuda_version_returns cuda_version _ _ _ _ Hentry Hlo Hhi).
    simpl. split; [| discriminate].
    split; [discriminate | intros [H _]; discriminate].
  - unfold update_cuda_version_with_available_torch_cuda_build, dict_get.
    rewrite Hentry. simpl. split; [| reflexivity]. split.
    + intros H. injection H as <-. auto.
    + now intros (_ & ->).
Qed.

Lemma update_cuda_version_raises_iff_witness :
  (result (update_cuda_version_with_available_torch_cuda_build
             "11.8" "1.13.0") = Raise (KeyError "1.13.0")
   <-> AVAILABLE_TORCH_VERSIONS !! "1.13.0" = None /\
       KeyError "1.13.0" = KeyError "1.13.0") /\
  update_cuda_version_with_available_torch_cuda_build "11.8" "1.13.0"
  = ([], Raise (KeyError "1.13.0")).
Proof.
  destruct (update_cuda_version_raises_iff "11.8" "1.13.0"
              (KeyError "1.13.0")) as [H1 H2].
  split; [exact H1 | exact (H2 eq_refl)].
Defined.

(** X2. For a torch version of the table: a CUDA version inside the bounds
    is returned as it is, without a warning; one below the least supported
    version gives the least, one above the greatest gives the greatest, each
    with the one warning that names the four versions. *)
Theorem update_cuda_version_zones (cuda_version torch_version : string)
    (entry : torch_build) :
  AVAILABLE_TORCH_VERSIONS !! torch_version = Some entry ->
  exists lo hi,
    py_min (cuda entry) = Some lo /\ py_max (cuda entry) = Some hi /\
    (str_le lo cuda_version = true -> str_le cuda_version hi = true ->
     update_cuda_version_with_available_torch_cuda_build
       cuda_version torch_version = ([], Return cuda_version)) /\
    (str_lt cuda_version lo = true ->
     update_cuda_version_with_available_torch_cuda_build
       cuda_version torch_version
     = ([WarnCudaVersionBounded cuda_version lo hi lo], Return lo)) /\
    (str_lt hi cuda_version = true ->
     update_cuda_version_with_available_torch_cuda_build
       cuda_version torch_version
     = ([WarnCudaVersionBounded cuda_version lo hi hi], Return hi)).
Proof.
  intros Hentry.
  destruct (AVAILABLE_TORCH_VERSIONS_bounds _ _ Hentry)
    as (lo & hi & Hlo & Hhi & Hle).
  exists lo, hi. split; [exact Hlo |]. split; [exact Hhi |].
  rewrite (update_cuda_version_returns cuda_version _ _ _ _ Hentry Hlo Hhi).
  destruct (clamp_cases lo hi cuda_version Hle) as (Hbelow & Habove & Hin).
  cbv zeta. repeat split.
  - intros H1 H2. rewrite (Hin H1 H2). now rewrite String.eqb_refl.
  - intros H. rewrite (Hbelow H).
    destruct (String.eqb cuda_version lo) eqn:E; [| reflexivity].
    apply String.eqb_eq in E. subst. now rewrite str_lt_irrefl in H.
  - intros H. rewrite (Habove H).
    destruct (String.eqb cuda_version hi) eqn:E; [| reflexivity].
    apply String.eqb_eq in E. subst. now rewrite str_lt_irrefl in H.
Qed.

Lemma update_cuda_version_zones_witness :
  exists lo hi,
    py_min ["11.7"; "11.8"] = Some lo /\ py_max ["11.7"; "11.8"] = Some hi /\
    (str_le lo "12.1" = true -> str_le "12.1" hi = true ->
     update_cuda_version_with_available_torch_cuda_build "12.1" "2.0.1"
     = ([], Return "12.1")) /\
    (str_lt "12.1" lo = true ->
     update_cuda_version_with_available_torch_cuda_build "12.1" "2.0.1"
     = ([WarnCudaVersionBounded "12.1" lo hi lo], Return lo)) /\
    (str_lt hi "12.1" = true ->
     update_cuda_version_with_available_torch_cuda_build "12.1" "2.0.1"
     = ([WarnCudaVersionBounded "12.1" lo hi hi], Return hi)).
Proof.
  apply (update_cuda_version_zones "12.1" "2.0.1"
           {| torchvision := "0.15.2"; cuda := ["11.7"; "11.8"] |}).
  reflexivity.
Defined.

(** X3. Negotiating twice is negotiating once: the version the function
    returns for a torch version of the table is returned unchanged, and
    without a warning, when it is given back with the same torch version. *)
Theorem update_cuda_version_idempotent (cuda_version torch_version : string)
    (ws : list warning) (v : string) :
  update_cuda_version_with_available_torch_cuda_build
    cuda_version torch_version = (ws, Return v) ->
  update_cuda_version_with_available_torch_cuda_build v torch_version
  = ([], Return v).
Proof.
  destruct (AVAILABLE_TORCH_VERSIONS !! torch_version) as [entry |] eqn:Hentry.
  - destruct (AVAILABLE_TORCH_VERSIONS_bounds _ _ Hentry)
      as (lo & hi & Hlo & Hhi & Hle).
    rewrite (update_cuda_version_returns cuda_version _ _ _ _ Hentry Hlo Hhi).
    intros [= _ <-].
    rewrite (update_cuda_version_returns _ _ _ _ _ Hentry Hlo Hhi).
    cbv zeta.
    destruct (clamp_cases lo hi (py_max2 (py_min2 cuda_version hi) lo) Hle)
      as (_ & _ & Hin).
    rewrite Hin by now apply clamp_between.
    now rewrite String.eqb_refl.
  - unfold update_cuda_version_with_available_torch_cuda_build, dict_get.
    rewrite Hentry. discriminate.
Qed.

Lemma update_cuda_version_idempotent_witness :
  update_cuda_version_with_available_torch_cuda_build "11.8" "2.0.1"
  = ([], Return "11.8").
Proof.
  apply (update_cuda_version_idempotent "12.1" "2.0.1"
           [WarnCudaVersionBounded "12.1" "11.7" "11.8" "11.8"] "11.8").
  reflexivity.
Defined.

(** X4. Negotiation keeps the order of versions: for one torch version, a
    CUDA version that is not greater than another (as a string) never
    negotiates to a greater one. *)
Theorem update_cuda_version_monotone (c1 c2 torch_version : string)
    (ws1 ws2 : list warning) (v1 v2 : string) :
  str_le c1 c2 = true ->
  update_cuda_version_with_available_torch_cuda_build c1 torch_version
    = (ws1, Return v1) ->
  update_cuda_version_with_available_torch_cuda_build c2 torch_version
    = (ws2, Return v2) ->
  str_le v1 v2 = true.
Proof.
  intros Hc.
  destruct (AVAILABLE_TORCH_VERSIONS !! torch_version) as [entry |] eqn:Hentry.
  - destruct (AVAILABLE_TORCH_VERSIONS_bounds _ _ Hentry)
      as (lo & hi & Hlo & Hhi & Hle).
    rewrite (update_cuda_version_returns c1 _ _ _ _ Hentry Hlo Hhi).
    rewrite (update_cuda_version_returns c2 _ _ _ _ Hentry Hlo Hhi).
    intros [= _ <-] [= _ <-].
    destruct (clamp_cases lo hi c1 Hle) as (Hb1 & Ha1 & Hi1).
    destruct (clamp_cases lo hi c2 Hle) as (Hb2 & Ha2 & Hi2).
    destruct (clamp_between lo hi c1 Hle) as [Hl1 Hh1].
    destruct (clamp_between lo hi c2 Hle) as [Hl2 Hh2].
    destruct (str_lt c1 lo) eqn:E1.
    { now rewrite (Hb1 eq_refl). }
    destruct (str_lt hi c2) eqn:E2.
    { now rewrite (Ha2 eq_refl). }
    apply str_lt_false_le in E1, E2.
    assert (Hc1hi : str_le c1 hi = true) by now apply str_le_trans with c2.
    assert (Hloc2 : str_le lo c2 = true) by now apply str_le_trans with c1.
    now rewrite (Hi1 E1 Hc1hi), (Hi2 Hloc2 E2).
  - unfold update_cuda_version_with_available_torch_cuda_build, dict_get.
    rewrite Hentry. discriminate.
Qed.

Lemma update_cuda_version_monotone_witness : str_le "11.8" "12.1" = true.
Proof.
  apply (update_cuda_version_monotone "11.0" "12.4" "2.2.0"
           [WarnCudaVersionBounded "11.0" "11.8" "12.1" "11.8"]
           [WarnCudaVersionBounded "12.4" "11.8" "12.1" "12.1"]
           "11.8" "12.1"); reflexivity.
Defined.

(** ** Suffix derivation, continued *)

Lemma remove_char_app (c : ascii) (a b : string) :
  remove_char c (a +:+ b) = remove_char c a +:+ remove_char c b.
Proof.
  induction a as [| x a IH]; simpl; [reflexivity |].
  destruct (Ascii.eqb x c); simpl; now rewrite IH.
Qed.

Lemma str_contains_remove_char (c : ascii) (s : string) :
  str_contains (String c EmptyString) (remove_char c s) = false.
Proof.
  induction s as [| x s IH]; [reflexivity |].
  simpl remove_char. destruct (Ascii.eqb x c) eqn:E; [exact IH |].
  cbn [str_contains]. rewrite prefix_single, E, IH. reflexivity.
Qed.

(** X5. A CUDA suffix starts with ["cu"] and holds no ["."]. *)
Theorem get_cuda_suffix_shape (cuda_version : string) :
  startswith (get_cuda_suffix cuda_version) "cu" = true /\
  str_contains "." (get_cuda_suffix cuda_version) = false.
Proof.
  unfold get_cuda_suffix. rewrite (replace_single_char ".").
  split.
  - unfold startswith. simpl. now destruct (remove_char "." cuda_version).
  - change ("cu" +:+ remove_char "." cuda_version)
      with (String "c" (String "u" (remove_char "." cuda_version))).
    cbn [str_contains]. rewrite !prefix_single. simpl.
    apply (str_contains_remove_char ".").
Qed.

(** X6. The suffix does not see where the dots are: a version with a dot
    put in or taken out has the same suffix, so distinct versions can share
    one; and the suffix of a version in two parts is the suffix of the first
    part followed by the second part without its dots. *)
Theorem get_cuda_suffix_ignores_dots (a b : string) :
  get_cuda_suffix (a +:+ "." +:+ b) = get_cuda_suffix (a +:+ b) /\
  get_cuda_suffix (a +:+ b) = get_cuda_suffix a +:+ remove_char "." b.
Proof.
  unfold get_cuda_suffix. rewrite !(replace_single_char ".").
  rewrite !remove_char_app. simpl. split; [reflexivity |].
  generalize (remove_char "." a) (remove_char "." b). clear.
  intros x y. reflexivity.
Qed.

(** ** Accelerator detection, continued *)

(** X7. [get_hardware_suffix] raises in exactly two cases. Either the
    probe of CUDA raises, and that exception passes through. Or a non-empty
    CUDA version is found and [with_available_torch_build] is set: then it
    raises the error of the missing torch version when [torch_version] is
    [None], and the [KeyError] of the torch version when the table does not
    hold it. *)
Theorem get_hardware_suffix_raises_iff (h : host) (w : bool)
    (torch_version : option string) (e : exn) :
  result (get_hardware_suffix h w torch_version) = Raise e
  <-> (exists failure,
         cuda_probe_result h = CudaProbeRaised failure /\
         e = CudaProbeError failure) \/
      (exists cv,
         cuda_probe_result h = CudaFound cv /\ cv <> "" /\ w = true /\
         ((torch_version = None /\ e = TorchVersionRequired) \/
          (exists v, torch_version = Some v /\
                     AVAILABLE_TORCH_VERSIONS !! v = None /\
                     e = KeyError v))).
Proof.
  unfold get_hardware_suffix, get_cuda_version.
  destruct (cuda_probe_result h) as [cv | | | k]; simpl.
  2, 3: split; [discriminate |];
    intros [(k' & Hk & _) | (cv' & Hcv & _)]; discriminate.
  2: { split.
       - intros H. injection H as <-. left. eauto.
       - intros [(k' & Hk & ->) | (cv' & Hcv & _)]; [| discriminate].
         now injection Hk as <-. }
  destruct (String.eqb cv "") eqn:Hcv; simpl.
  { apply String.eqb_eq in Hcv.
    split; [discriminate |].
    intros [(k' & Hk & _) | (cv' & Hc & Hne & _)]; [discriminate |].
    injection Hc as <-. contradiction. }
  apply String.eqb_neq in Hcv.
  destruct w; simpl.
  2: { split; [discriminate |].
       intros [(k' & Hk & _) | (cv' & _ & _ & Hw & _)]; discriminate. }
  destruct torch_version as [v |]; simpl.
  - destruct (AVAILABLE_TORCH_VERSIONS !! v) as [entry |] eqn:Hentry.
    + destruct (AVAILABLE_TORCH_VERSIONS_bounds _ _ Hentry)
        as (lo & hi & Hlo & Hhi & _).
      rewrite (update_cuda_version_returns cv _ _ _ _ Hentry Hlo Hhi).
      simpl. split; [discriminate |].
      intros [(k' & Hk & _)
             | (cv' & _ & _ & _ & [[Hn _] | (v0 & Hv & Hnone & _)])];
        try discriminate.
      injection Hv as <-. congruence.
    + unfold update_cuda_version_with_available_torch_cuda_build, dict_get.
      rewrite Hentry. simpl. split.
      * intros Hr. injection Hr as <-. right.
        exists cv. repeat split; auto. right. eauto.
      * intros [(k' & Hk & _)
               | (cv' & _ & _ & _ & [[Hn _] | (v0 & Hv & _ & ->)])];
          try discriminate.
        now injection Hv as <-.
  - split.
    + intros Hr. injection Hr as <-. right. exists cv. repeat split; auto.
    + intros [(k' & Hk & _)
             | (cv' & _ & _ & _ & [[_ ->] | (v0 & Hv & _)])];
        try discriminate. reflexivity.
Qed.

Lemma get_cuda_suffix_not_cpu (cuda_version : string) :
  get_cuda_suffix cuda_version <> "cpu".
Proof.
  unfold get_cuda_suffix.
  destruct (py_replace cuda_version "." "") as [| a s]; [discriminate |].
  simpl. intros H. injection H as _ H. discriminate.
Qed.

(** X8. The CPU suffix is returned exactly when the probe of CUDA returns
    no usable version: [None], or the empty string. A non-empty version
    never gives ["cpu"], and a probe that raises gives no suffix at all. *)
Theorem get_hardware_suffix_cpu_iff (h : host) (w : bool)
    (torch_version : option string) :
  result (get_hardware_suffix h w torch_version) = Return "cpu"
  <-> result (get_cuda_version h) = Return None \/
      result (get_cuda_version h) = Return (Some "").
Proof.
  unfold get_hardware_suffix, get_cuda_version.
  destruct (cuda_probe_result h) as [cv | | | k]; simpl.
  2, 3: split; auto.
  2: { split; [discriminate | intros [H | H]; discriminate]. }
  destruct (String.eqb cv "") eqn:Hcv; simpl.
  { apply String.eqb_eq in Hcv. subst. split; auto. }
  apply String.eqb_neq in Hcv.
  split.
  - intros H. exfalso. revert H.
    destruct w; simpl.
    + destruct torch_version as [v |]; simpl; [| discriminate].
      destruct (update_cuda_version_with_available_torch_cuda_build cv v)
        as [ws [v' | e']]; simpl; [| discriminate].
      intros H. apply (get_cuda_suffix_not_cpu v'). congruence.
    + intros H. apply (get_cuda_suffix_not_cpu cv). congruence.
  - intros [H | H]; [discriminate |]. injection H as ->. contradiction.
Qed.

(** X9. With [with_available_torch_build] and a torch version of the table,
    a non-empty CUDA version always gives a suffix, and it is the suffix of
    a version between the least and the greatest the table supports. *)
Theorem get_hardware_suffix_negotiated (h : host) (cv torch_version : string)
    (entry : torch_build) :
  cuda_probe_result h = CudaFound cv -> cv <> "" ->
  AVAILABLE_TORCH_VERSIONS !! torch_version = Some entry ->
  exists lo hi v,
    py_min (cuda entry) = Some lo /\ py_max (cuda entry) = Some hi /\
    str_le lo v = true /\ str_le v hi = true /\
    result (get_hardware_suffix h true (Some torch_version))
    = Return (get_cuda_suffix v).
Proof.
  intros Hprobe Hcv Hentry.
  destruct (AVAILABLE_TORCH_VERSIONS_bounds _ _ Hentry)
    as (lo & hi & Hlo & Hhi & Hle).
  exists lo, hi, (py_max2 (py_min2 cv hi) lo).
  split; [exact Hlo |]. split; [exact Hhi |].
  split; [now apply clamp_between |]. split; [now apply clamp_between |].
  unfold get_hardware_suffix, get_cuda_version. rewrite Hprobe. simpl.
  apply String.eqb_neq in Hcv. rewrite Hcv. simpl.
  rewrite (update_cuda_version_returns cv _ _ _ _ Hentry Hlo Hhi).
  reflexivity.
Qed.

Lemma get_hardware_suffix_negotiated_witness :
  exists lo hi v,
    py_min ["11.7"; "11.8"] = Some lo /\ py_max ["11.7"; "11.8"] = Some hi /\
    str_le lo v = true /\ str_le v hi = true /\
    result (get_hardware_suffix
              {| cuda_probe_result := CudaFound "12.1";
                 platform_system := "Linux" |} true (Some "2.0.1"))
    = Return (get_cuda_suffix v).
Proof.
  apply (get_hardware_suffix_negotiated
           {| cuda_probe_result := CudaFound "12.1";
              platform_system := "Linux" |} "12.1" "2.0.1"
           {| torchvision := "0.15.2"; cuda := ["11.7"; "11.8"] |});
    [reflexivity | discriminate | reflexivity].
Defined.

(** ** Specifiers, continued *)

(** A requirement without constraints gives the empty string, not the name
    of the requirement, and the host is not probed. *)
Lemma add_hardware_suffix_to_torch_no_specs (h : host) (r : Requirement)
    (hs : option string) (w : bool) :
  specs r = [] ->
  add_hardware_suffix_to_torch h r hs w = ([], Return "").
Proof.
  intros H. unfold add_hardware_suffix_to_torch. now rewrite H.
Qed.

(** X11. When no suffix is given ([None] or the empty string), the suffix
    is probed once, with the version of the first constraint, and then used
    for every constraint: the result is the one for that suffix given, after
    the warnings of the probe. *)
Theorem add_hardware_suffix_to_torch_probes_once (h : host) (r : Requirement)
    (hs : option string) (w : bool) (op v : string)
    (rest : list (string * string)) (ws : list warning) (s : string) :
  truthy hs = false ->
  specs r = (op, v) :: rest ->
  get_hardware_suffix h w (Some v) = (ws, Return s) ->
  add_hardware_suffix_to_torch h r hs w
  = (ws, result (add_hardware_suffix_to_torch h r (Some s) w)).
Proof.
  intros Hhs Hspecs Hprobe.
  assert (Hs : s <> "").
  { apply (get_hardware_suffix_nonempty h w (Some v)). now rewrite Hprobe. }
  rewrite (add_hardware_suffix_to_torch_given h r s w Hs).
  unfold add_hardware_suffix_to_torch. rewrite Hspecs.
  cbn [add_hardware_suffix_loop].
  assert (Hcall :
    match hs with
    | Some s0 => if truthy hs then ret s0
                 else get_hardware_suffix h w (Some v)
    | None => get_hardware_suffix h w (Some v)
    end = (ws, Return s)).
  { destruct hs; [now rewrite Hhs | exact Hprobe]. }
  rewrite Hcall. cbn [bind].
  rewrite (add_hardware_suffix_loop_given h w s rest Hs).
  unfold suffixed_specs. cbn [map fst snd app result].
  destruct (map _ rest) as [| s1 [| s2 rest']]; cbn;
    now rewrite ?app_nil_r.
Qed.

Lemma add_hardware_suffix_to_torch_probes_once_witness :
  add_hardware_suffix_to_torch
    {| cuda_probe_result := CudaFound "12.1"; platform_system := "Linux" |}
    {| unsafe_name := "torch"; specs := [("==", "2.0.1")];
       str_tail := "==2.0.1" |} None true
  = ([WarnCudaVersionBounded "12.1" "11.7" "11.8" "11.8"],
     Return "torch==2.0.1+cu118").
Proof.
  apply (add_hardware_suffix_to_torch_probes_once
           {| cuda_probe_result := CudaFound "12.1";
              platform_system := "Linux" |}
           {| unsafe_name := "torch"; specs := [("==", "2.0.1")];
              str_tail := "==2.0.1" |}
           None true "==" "2.0.1" []
           [WarnCudaVersionBounded "12.1" "11.7" "11.8" "11.8"] "cu118");
    reflexivity.
Defined.

(** X10. With a non-empty suffix given, the outcome depends on the
    constraints alone, with no warning and no probe of the host: the empty
    string for no constraint, the name and the suffixed constraints for one
    or two, the error of the specifier shape, carrying the suffixed
    constraints, for more. *)
Theorem add_hardware_suffix_to_torch_with_suffix (h h' : host)
    (r : Requirement) (hs : string) (w w' : bool) :
  hs <> "" ->
  add_hardware_suffix_to_torch h r (Some hs) w
    = add_hardware_suffix_to_torch h' r (Some hs) w' /\
  add_hardware_suffix_to_torch h r (Some hs) w
  = ([], match suffixed_specs (specs r) hs with
         | [] => Return ""
         | [s0] => Return (unsafe_name r +:+ s0)
         | [s0; s1] => Return (unsafe_name r +:+ s0 +:+ ", " +:+ s1)
         | l => Raise (UnsupportedSpecifierShape l)
         end).
Proof.
  intros Hhs. split.
  - now rewrite !add_hardware_suffix_to_torch_given.
  - now apply add_hardware_suffix_to_torch_given.
Qed.

Lemma add_hardware_suffix_to_torch_with_suffix_witness :
  add_hardware_suffix_to_torch
    {| cuda_probe_result := CudaFound "12.1"; platform_system := "Linux" |}
    {| unsafe_name := "torch";
       specs := [(">=", "2.0.0"); ("<", "2.3"); ("!=", "2.1.1")];
       str_tail := "!=2.1.1,<2.3,>=2.0.0" |} (Some "cpu") true
  = ([], Raise (UnsupportedSpecifierShape
                  [">=2.0.0+cpu"; "<2.3+cpu"; "!=2.1.1"])).
Proof.
  assert (Hhs : "cpu" <> "") by discriminate.
  destruct (add_hardware_suffix_to_torch_with_suffix
              {| cuda_probe_result := CudaFound "12.1";
                 platform_system := "Linux" |}
              {| cuda_probe_result := CudaNotFound;
                 platform_system := "Darwin" |}
              {| unsafe_name := "torch";
                 specs := [(">=", "2.0.0"); ("<", "2.3"); ("!=", "2.1.1")];
                 str_tail := "!=2.1.1,<2.3,>=2.0.0" |}
              "cpu" true false Hhs) as [_ H].
  exact H.
Defined.

Lemma add_hardware_suffix_to_torch_no_shape_error_witness :
  result (add_hardware_suffix_to_torch
            {| cuda_probe_result := CudaFound "12.1";
               platform_system := "Linux" |}
            {| unsafe_name := "torch"; specs := [("==", "1.13.0")];
               str_tail := "==1.13.0" |} None true)
  <> Raise (UnsupportedSpecifierShape ["==1.13.0+cu121"]).
Proof.
  apply (add_hardware_suffix_to_torch_no_shape_error
           {| cuda_probe_result := CudaFound "12.1";
              platform_system := "Linux" |}
           {| unsafe_name := "torch"; specs := [("==", "1.13.0")];
              str_tail := "==1.13.0" |} None true ["==1.13.0+cu121"]).
  simpl. lia.
Defined.

Lemma add_hardware_suffix_to_torch_many_specs_witness :
  let h := {| cuda_probe_result := CudaFound "11.8";
              platform_system := "Linux" |} in
  let r := {| unsafe_name := "torch";
              specs := [(">=", "1.13.0"); ("<", "1.14.0"); ("!=", "1.13.5")];
              str_tail := "!=1.13.5,<1.14.0,>=1.13.0" |} in
  (exists l, result (add_hardware_suffix_to_torch h r None false)
             = Raise (UnsupportedSpecifierShape l)) \/
  (exists e op v rest,
      specs r = (op, v) :: rest /\ truthy None = false /\
      result (get_hardware_suffix h false (Some v)) = Raise e /\
      result (add_hardware_suffix_to_torch h r None false) = Raise e).
Proof.
  intros h r.
  apply (add_hardware_suffix_to_torch_many_specs h r None false).
  simpl. lia.
Defined.

(** ** Installer arguments, continued *)

(** For a torch version of the table, what the probe of the suffix raises
    is what the probe of CUDA raised; the suffix it returns is not empty,
    and is ["cpu"] exactly when the probe of CUDA returned no usable
    version. *)
Lemma get_hardware_suffix_known_version (h : host) (v : string)
    (entry : torch_build) (ws : list warning) (o : outcome string) :
  AVAILABLE_TORCH_VERSIONS !! v = Some entry ->
  get_hardware_suffix h true (Some v) = (ws, o) ->
  match o with
  | Raise e =>
      exists failure,
        cuda_probe_result h = CudaProbeRaised failure /\
        e = CudaProbeError failure /\ ws = []
  | Return hs =>
      hs <> "" /\
      (hs = "cpu" <-> result (get_cuda_version h) = Return None \/
                      result (get_cuda_version h) = Return (Some ""))
  end.
Proof.
  intros Hentry.
  destruct (AVAILABLE_TORCH_VERSIONS_bounds _ _ Hentry)
    as (lo & hi & Hlo & Hhi & _).
  unfold get_hardware_suffix, get_cuda_version.
  destruct (cuda_probe_result h) as [cv | | | k]; simpl.
  - destruct (String.eqb cv "") eqn:Hcv; simpl.
    + apply String.eqb_eq in Hcv. subst.
      intros H. injection H as <- <-. split; [discriminate | tauto].
    + apply String.eqb_neq in Hcv.
      rewrite (update_cuda_version_returns cv _ _ _ _ Hentry Hlo Hhi).
      simpl. intros H. injection H as <- <-.
      split; [apply get_cuda_suffix_nonempty |]. split.
      * intros H. now apply get_cuda_suffix_not_cpu in H.
      * intros [H | H]; [discriminate |]. injection H as ->. contradiction.
  - intros H. injection H as <- <-. split; [discriminate | tauto].
  - intros H. injection H as <- <-. split; [discriminate | tauto].
  - intros H. injection H as <- <-. eauto.
Qed.

(** On Linux and Windows, for a version of the table: the probe, whose
    exception passes through, then the torch specifier, then the four
    arguments. *)
Lemma install_args_for_version_linux (h : host) (r : Requirement)
    (operator v : string) (entry : torch_build) (ws : list warning)
    (o : outcome string) :
  in_pair (platform_system h) "Linux" "Windows" = true ->
  AVAILABLE_TORCH_VERSIONS !! v = Some entry ->
  get_hardware_suffix h true (Some v) = (ws, o) ->
  install_args_for_version h r operator v
  = (ws, match o with
         | Raise e => Raise e
         | Return hs =>
             match suffixed_specs (specs r) hs with
             | [] =>
                 Return ["--extra-index-url";
                         "https://download.pytorch.org/whl/" +:+ hs; "";
                         torchvision_requirement_for operator entry hs]
             | [s0] =>
                 Return ["--extra-index-url";
                         "https://download.pytorch.org/whl/" +:+ hs;
                         unsafe_name r +:+ s0;
                         torchvision_requirement_for operator entry hs]
             | [s0; s1] =>
                 Return ["--extra-index-url";
                         "https://download.pytorch.org/whl/" +:+ hs;
                         unsafe_name r +:+ s0 +:+ ", " +:+ s1;
                         torchvision_requirement_for operator entry hs]
             | l => Raise (UnsupportedSpecifierShape l)
             end
         end).
Proof.
  intros Hsys Hentry Hg.
  pose proof (get_hardware_suffix_known_version h v entry ws o Hentry Hg)
    as Hk.
  unfold install_args_for_version. rewrite Hsys, Hg.
  destruct o as [hs | e]; [| reflexivity].
  destruct Hk as [Hhs _].
  unfold dict_get. rewrite Hentry. cbn [bind].
  rewrite (add_hardware_suffix_to_torch_given h r hs true Hhs).
  unfold torchvision_requirement_for.
  destruct (suffixed_specs (specs r) hs) as [| s0 [| s1 [| s2 rest]]];
    cbn; now rewrite ?app_nil_r.
Qed.

Lemma effective_version_known (version : string) :
  exists entry,
    AVAILABLE_TORCH_VERSIONS !! effective_version version = Some entry.
Proof.
  unfold effective_version.
  destruct (AVAILABLE_TORCH_VERSIONS !! version) as [entry |] eqn:H.
  - eauto.
  - rewrite lookup_max_torch_version. eauto.
Qed.

(** The first constraint whose operator holds an ["="], by position. *)
Lemma select_spec_from_first (specs : list (string * string)) :
  forall k j op v,
    specs !! j = Some (op, v) -> str_contains "=" op = true ->
    exists j' op' v',
      j' <= j /\ select_spec_from specs k = k + j' /\
      specs !! j' = Some (op', v') /\ str_contains "=" op' = true /\
      (forall m op'' v'', m < j' -> specs !! m = Some (op'', v'') ->
                          str_contains "=" op'' = false).
Proof.
  induction specs as [| [op0 v0] rest IH]; intros k j op v Hj Hop.
  - discriminate.
  - cbn [select_spec_from fst].
    destruct (str_contains "=" op0) eqn:H0.
    + exists 0, op0, v0. repeat split; try lia; auto;
        intros m op'' v'' Hm; lia.
    + destruct j as [| j].
      { simpl in Hj. injection Hj as -> ->. congruence. }
      simpl in Hj.
      destruct (IH (S k) j op v Hj Hop)
        as (j' & op' & v' & Hle & Hsel & Hlook & Hc & Hmin).
      exists (S j'), op', v'. repeat split; try lia; auto.
      intros [| m] op'' v'' Hm Hl.
      * simpl in Hl. injection Hl as <- <-. exact H0.
      * simpl in Hl. apply (Hmin m op'' v''); [lia | exact Hl].
Qed.

Lemma select_spec_from_none (specs : list (string * string)) :
  forall k,
    (forall j op v, specs !! j = Some (op, v) -> str_contains "=" op = false) ->
    select_spec_from specs k = 0.
Proof.
  induction specs as [| [op0 v0] rest IH]; intros k H; [reflexivity |].
  cbn [select_spec_from fst]. rewrite (H 0 op0 v0 eq_refl).
  apply IH. intros j op v Hj. apply (H (S j) op v Hj).
Qed.

(** X14. The constraint that decides the framework version is the first
    one whose operator holds an ["="] ([==], [>=], [<=], [~=], and also
    [!=]); when no operator does, it is the first constraint. *)
Theorem select_spec_idx_first (specs : list (string * string)) :
  (forall j op v,
     specs !! j = Some (op, v) -> str_contains "=" op = true ->
     exists op' v',
       select_spec_idx specs <= j /\
       specs !! select_spec_idx specs = Some (op', v') /\
       str_contains "=" op' = true /\
       (forall m op'' v'', m < select_spec_idx specs ->
          specs !! m = Some (op'', v'') -> str_contains "=" op'' = false)) /\
  ((forall j op v, specs !! j = Some (op, v) -> str_contains "=" op = false) ->
   select_spec_idx specs = 0).
Proof.
  split.
  - intros j op v Hj Hop.
    destruct (select_spec_from_first specs 0 j op v Hj Hop)
      as (j' & op' & v' & Hle & Hsel & Hlook & Hc & Hmin).
    unfold select_spec_idx. rewrite Hsel. simpl. eauto 8.
  - apply select_spec_from_none.
Qed.

Section InstallArgsOutcomes.

Variable Requirement_parse : string -> option Requirement.

(** The function, from the selected constraint: the warning of the
    substitution when the table does not hold the version, then the branch
    on the platform at the version the function goes on with. *)
Lemma get_torch_install_args_effective (h : host) (r : Requirement)
    (operator version : string) :
  specs r !! select_spec_idx (specs r) = Some (operator, version) ->
  get_torch_install_args Requirement_parse h (inr r)
  = (match AVAILABLE_TORCH_VERSIONS !! version with
     | Some _ => []
     | None => [WarnTorchVersionSelected "2.2.0"]
     end
     ++ fst (install_args_for_version h r operator
               (effective_version version)),
     snd (install_args_for_version h r operator
            (effective_version version))).
Proof.
  intros Hsel.
  rewrite (get_torch_install_args_selected Requirement_parse h r _ _ Hsel).
  unfold effective_version.
  destruct (AVAILABLE_TORCH_VERSIONS !! version).
  - now destruct (install_args_for_version h r operator version).
  - now destruct (install_args_for_version h r operator "2.2.0").
Qed.

(** X15. On Linux and Windows, for a requirement with constraints, the
    outcome follows the probe of the hardware suffix for the version the
    function goes on with. When the probe returns a suffix: with one or two
    constraints the four arguments are returned, that is the flag, the index
    URL ending in the suffix, the torch specifier built with that suffix and
    the torchvision specifier; with more, the error of the specifier shape
    is raised; and the suffix is ["cpu"] exactly when the probe of CUDA
    returned no usable version. When the probe raises, what it raises is an
    exception of the probe of CUDA, and the function raises the same. *)
Theorem get_torch_install_args_linux (h : host) (r : Requirement)
    (operator version : string) :
  specs r !! select_spec_idx (specs r) = Some (operator, version) ->
  in_pair (platform_system h) "Linux" "Windows" = true ->
  exists entry,
    AVAILABLE_TORCH_VERSIONS !! effective_version version = Some entry /\
    (forall ws hs,
       get_hardware_suffix h true (Some (effective_version version))
         = (ws, Return hs) ->
       (hs = "cpu" <-> result (get_cuda_version h) = Return None \/
                       result (get_cuda_version h) = Return (Some "")) /\
       (List.length (specs r) <= 2 ->
        exists tv,
          add_hardware_suffix_to_torch h r (Some hs) true
            = ([], Return tv) /\
          get_torch_install_args Requirement_parse h (inr r)
          = (substitution_warnings version ++ ws,
             Return ["--extra-index-url";
                     "https://download.pytorch.org/whl/" +:+ hs; tv;
                     torchvision_requirement_for operator entry hs])) /\
       (2 < List.length (specs r) ->
        get_torch_install_args Requirement_parse h (inr r)
        = (substitution_warnings version ++ ws,
           Raise (UnsupportedSpecifierShape
                    (suffixed_specs (specs r) hs))))) /\
    (forall ws e,
       get_hardware_suffix h true (Some (effective_version version))
         = (ws, Raise e) ->
       (exists failure,
          cuda_probe_result h = CudaProbeRaised failure /\
          e = CudaProbeError failure) /\
       get_torch_install_args Requirement_parse h (inr r)
       = (substitution_warnings version ++ ws, Raise e)).
Proof.
  intros Hsel Hsys.
  destruct (effective_version_known version) as [entry Hentry].
  rewrite (get_torch_install_args_effective h r _ _ Hsel).
  exists entry. split; [exact Hentry |]. fold (substitution_warnings version). split.
  - intros ws hs Hg.
    destruct (get_hardware_suffix_known_version h _ entry ws _ Hentry Hg)
      as [Hhs Hcpu].
    rewrite (install_args_for_version_linux h r operator _ entry _ _
               Hsys Hentry Hg).
    cbn [fst snd]. split; [exact Hcpu |].
    rewrite (add_hardware_suffix_to_torch_given h r hs true Hhs).
    assert (Hlen : List.length (suffixed_specs (specs r) hs)
                   = List.length (specs r)).
    { unfold suffixed_specs. apply length_map. }
    assert (Hne : List.length (specs r) <> 0).
    { destruct (specs r); [discriminate | simpl; lia]. }
    rewrite <- Hlen in *.
    destruct (suffixed_specs (specs r) hs) as [| s0 [| s1 [| s2 rest]]];
      simpl in Hne |- *; split; intros Hl; try lia; eauto.
  - intros ws e Hg.
    destruct (get_hardware_suffix_known_version h _ entry ws _ Hentry Hg)
      as (k & Hk & -> & ->).
    rewrite (install_args_for_version_linux h r operator _ entry _ _
               Hsys Hentry Hg).
    cbn [fst snd]. split; [eauto | reflexivity].
Qed.

(** X16. On macos and Darwin the function never fails and never adds an
    index URL: whatever the constraints, however many, and whatever CUDA is
    found, the only argument is the string of the requirement; the only
    warning it can give is the one of the substituted version. *)
Theorem get_torch_install_args_macos (h : host) (r : Requirement) :
  in_pair (platform_system h) "Linux" "Windows" = false ->
  in_pair (platform_system h) "macos" "Darwin" = true ->
  get_torch_install_args Requirement_parse h (inr r)
    = ([], Return [Requirement_str r]) \/
  get_torch_install_args Requirement_parse h (inr r)
    = ([WarnTorchVersionSelected "2.2.0"], Return [Requirement_str r]).
Proof.
  intros Hlin Hmac.
  destruct (specs r) as [| spec rest] eqn:Hspecs.
  - left. unfold get_torch_install_args. now rewrite bind_ret_l, Hspecs.
  - assert (Hne : specs r <> []) by now rewrite Hspecs.
    destruct (select_spec_idx_lookup (specs r) Hne) as [[op v] Hsel].
    rewrite (get_torch_install_args_effective h r op v Hsel).
    unfold install_args_for_version. rewrite Hlin, Hmac. simpl.
    destruct (AVAILABLE_TORCH_VERSIONS !! v); auto.
Qed.

End InstallArgsOutcomes.

Lemma get_torch_install_args_linux_witness :
  get_torch_install_args (fun _ => None)
    {| cuda_probe_result := CudaNotFound; platform_system := "Windows" |}
    (inr {| unsafe_name := "torch"; specs := [("==", "2.0.1")];
            str_tail := "==2.0.1" |})
  = ([], Return ["--extra-index-url"; "https://download.pytorch.org/whl/cpu";
                 "torch==2.0.1+cpu"; "torchvision==0.15.2+cpu"]).
Proof.
  destruct (get_torch_install_args_linux (fun _ => None)
              {| cuda_probe_result := CudaNotFound;
                 platform_system := "Windows" |}
              {| unsafe_name := "torch"; specs := [("==", "2.0.1")];
                 str_tail := "==2.0.1" |} "==" "2.0.1" eq_refl eq_refl)
    as (entry & Hentry & Hret & _).
  destruct (Hret [] "cpu" eq_refl) as (_ & Hargs & _).
  destruct (Hargs ltac:(simpl; lia)) as (tv & Htv & H).
  vm_compute in Htv, Hentry.
  injection Htv as <-. injection Hentry as <-.
  rewrite H. vm_compute. reflexivity.
Defined.

Lemma get_torch_install_args_macos_witness :
  let h := {| cuda_probe_result := CudaFound "12.1";
              platform_system := "Darwin" |} in
  let r := {| unsafe_name := "torch";
              specs := [(">=", "1.13.0"); ("<", "2.3"); ("!=", "2.1.0")];
              str_tail := "!=2.1.0,<2.3,>=1.13.0" |} in
  get_torch_install_args (fun _ => None) h (inr r)
    = ([], Return [Requirement_str r]) \/
  get_torch_install_args (fun _ => None) h (inr r)
    = ([WarnTorchVersionSelected "2.2.0"], Return [Requirement_str r]).
Proof.
  intros h r.
  apply (get_torch_install_args_macos (fun _ => None) h r); reflexivity.
Defined.

Lemma select_spec_idx_first_witness :
  exists op' v',
    select_spec_idx [("<", "2.1"); (">=", "2.0.1")] <= 1 /\
    [("<", "2.1"); (">=", "2.0.1")]
      !! select_spec_idx [("<", "2.1"); (">=", "2.0.1")] = Some (op', v') /\
    str_contains "=" op' = true /\
    (forall m op'' v'',
       m < select_spec_idx [("<", "2.1"); (">=", "2.0.1")] ->
       [("<", "2.1"); (">=", "2.0.1")] !! m = Some (op'', v'') ->
       str_contains "=" op'' = false).
Proof.
  destruct (select_spec_idx_first [("<", "2.1"); (">=", "2.0.1")]) as [H _].
  exact (H 1 ">=" "2.0.1" eq_refl eq_refl).
Defined.

(** In the table, the torch versions that keep their version unsuffixed are
    the ones whose torchvision is of the 0.16 series. *)
Lemma AVAILABLE_TORCH_VERSIONS_suffix_guards (v : string)
    (entry : torch_build) :
  AVAILABLE_TORCH_VERSIONS !! v = Some entry ->
  startswith v "2.1" || startswith v "2.2"
  = startswith (torchvision entry) "0.16".
Proof.
  intros Hentry. apply AVAILABLE_TORCH_VERSIONS_lookup in Hentry.
  unfold AVAILABLE_TORCH_VERSIONS_items in Hentry. simpl in Hentry.
  repeat (destruct Hentry as [Hentry | Hentry];
          [inversion Hentry; subst; reflexivity |]).
  contradiction.
Qed.

Section PinnedRequirement.

Variable Requirement_parse : string -> option Requirement.

(** X17. For a requirement with one constraint on a torch version of the
    table, on Linux and Windows, once the probe of the hardware suffix has
    returned, the torch and the torchvision specifiers agree on the suffix:
    both carry ["+<suffix>"] (torch 2.0.x), or neither does (torch 2.1.x and
    2.2.x); both have the operator of the constraint, and the index URL ends
    in the same suffix. *)
Theorem get_torch_install_args_pinned (h : host) (r : Requirement)
    (operator version : string) (entry : torch_build)
    (ws : list warning) (hs : string) :
  specs r = [(operator, version)] ->
  AVAILABLE_TORCH_VERSIONS !! version = Some entry ->
  in_pair (platform_system h) "Linux" "Windows" = true ->
  get_hardware_suffix h true (Some version) = (ws, Return hs) ->
  (startswith (torchvision entry) "0.16" = true ->
   get_torch_install_args Requirement_parse h (inr r)
   = (ws, Return ["--extra-index-url";
                  "https://download.pytorch.org/whl/" +:+ hs;
                  unsafe_name r +:+ operator +:+ version;
                  "torchvision" +:+ operator +:+ torchvision entry])) /\
  (startswith (torchvision entry) "0.16" = false ->
   get_torch_install_args Requirement_parse h (inr r)
   = (ws, Return ["--extra-index-url";
                  "https://download.pytorch.org/whl/" +:+ hs;
                  unsafe_name r +:+ operator +:+ version +:+ "+" +:+ hs;
                  ("torchvision" +:+ operator +:+ torchvision entry)
                  +:+ "+" +:+ hs])).
Proof.
  intros Hspecs Hentry Hsys Hg.
  assert (Hsel : specs r !! select_spec_idx (specs r)
                 = Some (operator, version)).
  { rewrite Hspecs. unfold select_spec_idx. simpl.
    now destruct (str_contains "=" operator). }
  rewrite (get_torch_install_args_selected Requirement_parse h r _ _ Hsel).
  rewrite Hentry.
  rewrite (install_args_for_version_linux h r operator _ entry _ _
             Hsys Hentry Hg).
  rewrite Hspecs. unfold suffixed_specs, updated_version,
    torchvision_requirement_for. cbn [map fst snd].
  rewrite (AVAILABLE_TORCH_VERSIONS_suffix_guards _ _ Hentry).
  split; intros ->; reflexivity.
Qed.

End PinnedRequirement.

Lemma get_torch_install_args_pinned_witness :
  (startswith "0.15.2" "0.16" = true ->
   get_torch_install_args (fun _ => None)
     {| cuda_probe_result := CudaFound "12.1"; platform_system := "Linux" |}
     (inr {| unsafe_name := "torch"; specs := [("==", "2.0.1")];
             str_tail := "==2.0.1" |})
   = ([WarnCudaVersionBounded "12.1" "11.7" "11.8" "11.8"],
      Return ["--extra-index-url";
              "https://download.pytorch.org/whl/" +:+ "cu118";
              "torch" +:+ "==" +:+ "2.0.1";
              "torchvision" +:+ "==" +:+ "0.15.2"])) /\
  (startswith "0.15.2" "0.16" = false ->
   get_torch_install_args (fun _ => None)
     {| cuda_probe_result := CudaFound "12.1"; platform_system := "Linux" |}
     (inr {| unsafe_name := "torch"; specs := [("==", "2.0.1")];
             str_tail := "==2.0.1" |})
   = ([WarnCudaVersionBounded "12.1" "11.7" "11.8" "11.8"],
      Return ["--extra-index-url";
              "https://download.pytorch.org/whl/" +:+ "cu118";
              "torch" +:+ "==" +:+ "2.0.1" +:+ "+" +:+ "cu118";
              ("torchvision" +:+ "==" +:+ "0.15.2") +:+ "+" +:+ "cu118"])).
Proof.
  apply (get_torch_install_args_pinned (fun _ => None)
           {| cuda_probe_result := CudaFound "12.1";
              platform_system := "Linux" |}
           {| unsafe_name := "torch"; specs := [("==", "2.0.1")];
              str_tail := "==2.0.1" |} "==" "2.0.1"
           {| torchvision := "0.15.2"; cuda := ["11.7"; "11.8"] |}
           [WarnCudaVersionBounded "12.1" "11.7" "11.8" "11.8"] "cu118");
    reflexivity.
Defined.

(** ** Requirement parsing, continued *)

Lemma last_cons_default {A} (x d : A) (l : list A) :
  List.last (x :: l) d = List.last l x.
Proof.
  revert x d. induction l as [| y l IH]; intros x d; [reflexivity |].
  change (List.last (x :: y :: l) d) with (List.last (y :: l) d).
  now rewrite (IH y d), (IH y x).
Qed.

(** The loop in closed form: a warning for each torch requirement with more
    than one constraint, the last torch requirement, the other strings. *)
Lemma parse_requirements_loop_closed (rs : list Requirement) :
  forall (t : option string) (o : list string),
    parse_requirements_loop rs t o
    = (repeat WarnMultipleTorchSpecs (List.length (multi_spec_torch rs)),
       Return (List.last (map Some (torch_strings rs)) t,
               o ++ other_strings rs)).
Proof.
  induction rs as [| r rest IH]; intros t o.
  - simpl. unfold other_strings. simpl. now rewrite app_nil_r.
  - cbn [parse_requirements_loop]. fold (is_torch r).
    unfold multi_spec_torch, torch_strings, other_strings.
    cbn [List.filter]. destruct (is_torch r) eqn:Hr; cbn [negb andb].
    + rewrite IH. cbn [map]. rewrite last_cons_default.
      unfold multi_spec_torch, torch_strings, other_strings.
      destruct (Nat.ltb 1 (List.length (specs r))); reflexivity.
    + rewrite IH. unfold multi_spec_torch, torch_strings, other_strings.
      cbn [map]. now rewrite <- app_assoc.
Qed.

(** X18. When several requirements are named torch, the last one is the
    torch requirement that is returned. *)
Theorem parse_requirements_last_torch (rs rs' : list Requirement)
    (t : Requirement) (skip_torch : bool) :
  unsafe_name t = "torch" ->
  Forall (fun r => unsafe_name r <> "torch") rs' ->
  exists ws,
    parse_requirements (rs ++ t :: rs') skip_torch
    = (ws, Return (Some (Requirement_str t),
                   list_of_set (other_strings (rs ++ t :: rs')))).
Proof.
  intros Ht Hrs'.
  assert (Htorch : is_torch t = true) by now apply String.eqb_eq.
  assert (Hnone : List.filter is_torch rs' = []).
  { induction Hrs' as [| r l Hr _ IH]; [reflexivity |].
    simpl. apply String.eqb_neq in Hr. unfold is_torch at 1.
    now rewrite Hr. }
  unfold parse_requirements. rewrite parse_requirements_loop_closed.
  assert (Hlast : List.last (map Some (torch_strings (rs ++ t :: rs'))) None
                  = Some (Requirement_str t)).
  { unfold torch_strings. rewrite List.filter_app. cbn [List.filter].
    rewrite Htorch, Hnone, !map_app. cbn [map].
    now rewrite List.last_last. }
  rewrite Hlast. cbn [bind].
  pose proof (torch_str_truthy t Htorch) as Htruthy.
  rewrite Htruthy, andb_false_r. cbn. eexists. reflexivity.
Qed.

Lemma parse_requirements_last_torch_witness :
  let t1 := {| unsafe_name := "torch"; specs := [("==", "2.0.1")];
               str_tail := "==2.0.1" |} in
  let t2 := {| unsafe_name := "torch"; specs := [("==", "2.1.2")];
               str_tail := "==2.1.2" |} in
  let o := {| unsafe_name := "onnx"; specs := []; str_tail := "" |} in
  exists ws,
    parse_requirements ([t1] ++ t2 :: [o]) false
    = (ws, Return (Some (Requirement_str t2),
                   list_of_set (other_strings ([t1] ++ t2 :: [o])))).
Proof.
  intros t1 t2 o.
  apply (parse_requirements_last_torch [t1] [o] t2 false).
  - reflexivity.
  - repeat constructor. discriminate.
Defined.

(** X19. [parse_requirements] calls [warn] once for each requirement named
    torch that carries more than one constraint, and for nothing else,
    whether it then returns or raises. *)
Theorem parse_requirements_warnings (rs : list Requirement)
    (skip_torch : bool) :
  fst (parse_requirements rs skip_torch)
  = repeat WarnMultipleTorchSpecs (List.length (multi_spec_torch rs)).
Proof.
  unfold parse_requirements. rewrite parse_requirements_loop_closed.
  cbn [bind].
  destruct (negb skip_torch && negb _); cbn; now rewrite app_nil_r.
Qed.

(** X20. With [skip_torch] the function always returns; the torch
    requirement it returns is [None] exactly when no requirement is named
    torch. Without it, the only error is the one of the missing torch
    requirement. *)
Theorem parse_requirements_skip_torch (rs : list Requirement) :
  (exists ws t,
     parse_requirements rs true
     = (ws, Return (t, list_of_set (other_strings rs))) /\
     (t = None <-> Forall (fun r => unsafe_name r <> "torch") rs)) /\
  (forall e, result (parse_requirements rs false) = Raise e ->
             e = MissingTorchRequirement).
Proof.
  split.
  - unfold parse_requirements. rewrite parse_requirements_loop_closed.
    cbn. eexists _, _. split; [reflexivity |].
    unfold torch_strings.
    induction rs as [| r rest IH] using rev_ind.
    + simpl. split; auto.
    + rewrite List.filter_app, !map_app, Forall_app. cbn [List.filter].
      destruct (is_torch r) eqn:Hr; cbn [map].
      * rewrite List.last_last. apply String.eqb_eq in Hr.
        split; [discriminate |]. intros [_ H].
        apply Forall_inv in H. contradiction.
      * rewrite app_nil_r, IH. apply String.eqb_neq in Hr.
        split; [intros H; split; auto | tauto].
  - intros e. unfold parse_requirements.
    rewrite parse_requirements_loop_closed. cbn [bind].
    destruct (negb false && negb _); cbn; congruence.
Qed.

(** X21. The other requirements depend on the set of the non-torch strings
    alone: two inputs with the same non-torch strings, in any order and
    with any repetition, give the same other requirements up to order. *)
Theorem parse_requirements_others_set (rs1 rs2 : list Requirement)
    (skip1 skip2 : bool) (ws1 ws2 : list warning) (t1 t2 : option string)
    (o1 o2 : list string) :
  (forall s, In s (other_strings rs1) <-> In s (other_strings rs2)) ->
  parse_requirements rs1 skip1 = (ws1, Return (t1, o1)) ->
  parse_requirements rs2 skip2 = (ws2, Return (t2, o2)) ->
  Permutation o1 o2.
Proof.
  intros Hsame. unfold parse_requirements.
  rewrite !parse_requirements_loop_closed. cbn [bind].
  destruct (negb skip1 && negb _); [discriminate |].
  destruct (negb skip2 && negb _); [discriminate |].
  cbn. intros H1 H2. injection H1 as _ _ <-. injection H2 as _ _ <-.
  unfold list_of_set.
  apply NoDup_Permutation; try apply NoDup_elements.
  intros s. rewrite !elem_of_elements, !elem_of_list_to_set.
  rewrite !list_elem_of_In. apply Hsame.
Qed.

Lemma parse_requirements_others_set_witness :
  Permutation ["onnx"; "numpy"] ["onnx"; "numpy"].
Proof.
  pose (o := {| unsafe_name := "onnx"; specs := []; str_tail := "" |}).
  pose (n := {| unsafe_name := "numpy"; specs := []; str_tail := "" |}).
  apply (parse_requirements_others_set [o; n; o] [n; o] true true [] []
           None None ["onnx"; "numpy"] ["onnx"; "numpy"]).
  - intros s. simpl. tauto.
  - vm_compute. reflexivity.
  - vm_compute. reflexivity.
Defined.

(** ** The probe of the host *)

Lemma split_on_nonempty (sep : ascii) (s : string) : split_on sep s <> [].
Proof.
  destruct s as [| a rest]; simpl; [discriminate |].
  destruct (Ascii.eqb a sep); [discriminate |].
  destruct (split_on sep rest); discriminate.
Qed.

Lemma prefix_refl (s : string) : String.prefix s s = true.
Proof.
  induction s as [| a s IH]; [reflexivity |].
  simpl. now destruct (ascii_dec a a).
Qed.

Lemma prefix_empty (s : string) : String.prefix "" s = true.
Proof. now destruct s. Qed.

Lemma prefix_cons (a : ascii) (p s : string) :
  String.prefix (String a p) (String a s) = String.prefix p s.
Proof. simpl. now destruct (ascii_dec a a). Qed.

(** The first two parts of a version: a prefix of it with at most one
    separator, and the version itself when it has at most one. *)
Lemma take_0_nil {A} (l : list A) : take 0 l = [].
Proof. now destruct l. Qed.

(** The first part of a version: a prefix of it without separator. *)
Lemma first_part (s : string) :
  let r := py_join "." (take 1 (split_on "." s)) in
  String.prefix r s = true /\ count_char "." r = 0 /\
  (count_char "." s = 0 -> r = s).
Proof.
  induction s as [| a rest IH]; [now simpl |].
  cbn [split_on count_char].
  destruct (Ascii.eqb a ".") eqn:Ha.
  - simpl. repeat split; auto. lia.
  - destruct IH as (Hp & Hc & He).
    pose proof (split_on_nonempty "." rest) as Hne.
    destruct (split_on "." rest) as [| part parts]; [contradiction |].
    cbn [take] in Hp, Hc, He |- *. rewrite take_0_nil in *.
    cbn [py_join count_char] in Hp, Hc, He |- *.
    rewrite prefix_cons, Ha.
    repeat split; auto. intros H0. now rewrite (He H0).
Qed.

(** The first two parts of a version: a prefix of it with at most one
    separator, and the version itself when it has at most one. *)
Lemma first_two_parts (s : string) :
  let r := py_join "." (take 2 (split_on "." s)) in
  String.prefix r s = true /\ count_char "." r <= 1 /\
  (count_char "." s <= 1 -> r = s).
Proof.
  induction s as [| a rest IH]; [cbn; repeat split; auto; lia |].
  cbn [split_on count_char].
  destruct (Ascii.eqb a ".") eqn:Ha.
  - apply Ascii.eqb_eq in Ha. subst a.
    destruct (first_part rest) as (Hp & Hc & He).
    pose proof (split_on_nonempty "." rest) as Hne.
    destruct (split_on "." rest) as [| part parts]; [contradiction |].
    cbn [take] in Hp, Hc, He |- *. rewrite take_0_nil in *.
    cbn [py_join] in Hp, Hc, He |- *.
    change ("" +:+ "." +:+ part) with (String "." part).
    rewrite prefix_cons. cbn [count_char]. rewrite Ascii.eqb_refl.
    repeat split; [exact Hp | lia |].
    intros H0. rewrite He; [reflexivity | lia].
  - destruct IH as (Hp & Hc & He).
    pose proof (split_on_nonempty "." rest) as Hne.
    destruct (split_on "." rest) as [| part [| part' parts]];
      [contradiction | |].
    + cbn [take py_join count_char] in Hp, Hc, He |- *.
      rewrite prefix_cons, Ha.
      repeat split; auto. intros H0. now rewrite (He H0).
    + cbn [take] in Hp, Hc, He |- *. rewrite take_0_nil in *.
      cbn [py_join] in Hp, Hc, He |- *.
      change (String a part +:+ "." +:+ part')
        with (String a (part +:+ "." +:+ part')).
      rewrite prefix_cons. cbn [count_char]. rewrite Ha.
      repeat split; auto. intros H0. now rewrite (He H0).
Qed.

(** X22. When [version.json] names a CUDA version, [get_cuda_version]
    returns its first two dot-separated parts, without a warning and
    whatever [nvcc] would say: a prefix of the version with at most one
    ["."], and the version itself when it has at most one ["."]. *)
Theorem get_cuda_version_from_version_json (env : cuda_env)
    (system cuda_version : string) :
  version_json_cuda_version env = Some cuda_version ->
  exists v,
    get_cuda_version {| cuda_probe_result := probe_cuda env;
                        platform_system := system |}
    = ([], Return (Some v)) /\
    v = major_minor cuda_version /\
    String.prefix v cuda_version = true /\
    count_char "." v <= 1 /\
    (count_char "." cuda_version <= 1 -> v = cuda_version).
Proof.
  intros Hjson. exists (major_minor cuda_version).
  unfold version_json_cuda_version in Hjson.
  unfold get_cuda_version, probe_cuda. simpl.
  destruct (version_json env); try discriminate.
  injection Hjson as ->.
  split; [reflexivity |]. split; [reflexivity |].
  apply first_two_parts.
Qed.

Lemma get_cuda_version_from_version_json_witness :
  exists v,
    get_cuda_version
      {| cuda_probe_result :=
           probe_cuda {| version_json := VersionJsonVersion "12.1.105";
                         nvcc := NvccVersion "11.8" |};
         platform_system := "Linux" |}
    = ([], Return (Some v)) /\
    v = major_minor "12.1.105" /\
    String.prefix v "12.1.105" = true /\
    count_char "." v <= 1 /\
    (count_char "." "12.1.105" <= 1 -> v = "12.1.105").
Proof.
  apply (get_cuda_version_from_version_json
           {| version_json := VersionJsonVersion "12.1.105";
              nvcc := NvccVersion "11.8" |}
           "Linux" "12.1.105").
  reflexivity.
Defined.

(** ** Reading the requirement files *)

Section GetRequirementsFacts.

Variable strip : string -> string.
Variable Requirement_parse : string -> option Requirement.
Variable file_lines : string -> option (list string).

Local Abbreviation read_lines := (read_packages strip Requirement_parse).
Local Abbreviation read_files :=
  (get_requirements_loop strip Requirement_parse file_lines).
Local Abbreviation requirements_of :=
  (get_requirements strip Requirement_parse file_lines).
Local Abbreviation kept := (packages_of strip).

Lemma read_packages_acc (lines : list string) :
  forall acc, read_lines lines acc = extend acc (read_lines lines []).
Proof.
  induction lines as [| line rest IH]; intros acc.
  - simpl. now rewrite app_nil_r.
  - cbn [read_packages].
    destruct (is_package (strip line)); [| apply IH].
    destruct (Requirement_parse (strip line)) as [r |]; [| reflexivity].
    rewrite (IH (acc ++ [r])), (IH ([] ++ [r])).
    destruct (read_lines rest []); simpl; [reflexivity |].
    now rewrite <- app_assoc.
Qed.

Lemma get_requirements_loop_acc (files : list string) :
  forall acc,
    read_files files acc
    = extend acc (read_files files []).
Proof.
  induction files as [| f rest IH]; intros acc.
  - simpl. now rewrite app_nil_r.
  - cbn [get_requirements_loop].
    destruct (file_lines (requirement_path f)) as [lines |]; [| reflexivity].
    rewrite (read_packages_acc lines acc).
    destruct (read_lines lines []) as [e | rs]; simpl; [reflexivity |].
    rewrite (IH (acc ++ rs)), (IH rs).
    destruct (read_files rest []); simpl; [reflexivity |].
    now rewrite <- app_assoc.
Qed.

Lemma get_requirements_loop_app (files1 files2 : list string) :
  forall acc,
    read_files (files1 ++ files2) acc
    = match read_files files1 acc with
      | inl e => inl e
      | inr acc' => read_files files2 acc'
      end.
Proof.
  induction files1 as [| f rest IH]; intros acc; [reflexivity |].
  cbn [app get_requirements_loop].
  destruct (file_lines (requirement_path f)) as [lines |]; [| reflexivity].
  destruct (read_lines lines acc); [reflexivity | apply IH].
Qed.

(** X23. The files are read in order and the first failure stops
    everything: the requirements of two lists of files, one after the
    other, are those of the first list followed by those of the second; when
    the first list fails, so does the whole, with the same error, and the
    second is not looked at. *)
Theorem get_requirements_app (files1 files2 : list string) :
  get_requirements strip Requirement_parse file_lines (files1 ++ files2)
  = match get_requirements strip Requirement_parse file_lines files1 with
    | inl e => inl e
    | inr rs1 =>
        match get_requirements strip Requirement_parse file_lines files2 with
        | inl e => inl e
        | inr rs2 => inr (rs1 ++ rs2)
        end
    end.
Proof.
  unfold get_requirements. rewrite get_requirements_loop_app.
  destruct (read_files files1 []) as [e | rs1]; [reflexivity |].
  rewrite get_requirements_loop_acc.
  now destruct (read_files files2 []).
Qed.

Lemma packages_of_app (lines1 lines2 : list string) :
  kept (lines1 ++ lines2) = kept lines1 ++ kept lines2.
Proof. unfold packages_of. now rewrite map_app, List.filter_app. Qed.

Lemma read_packages_inr (lines : list string) (rs : list Requirement) :
  read_lines lines [] = inr rs
  <-> Forall2 (fun p r => Requirement_parse p = Some r) (kept lines) rs.
Proof.
  revert rs. induction lines as [| line rest IH]; intros rs.
  - simpl. split.
    + intros H. injection H as <-. constructor.
    + intros H. now inversion H.
  - cbn [read_packages]. unfold packages_of. cbn [map List.filter].
    fold (kept rest).
    destruct (is_package (strip line)); [| apply IH].
    destruct (Requirement_parse (strip line)) as [r |] eqn:Hp.
    + rewrite read_packages_acc.
      destruct (read_lines rest []) as [e | rs'] eqn:Hrest; simpl.
      * split; [discriminate |]. intros H. inversion H as [| ? ? ? ? _ Ht]; subst.
        apply IH in Ht. discriminate.
      * split.
        -- intros H. injection H as <-. constructor; [exact Hp |].
           now apply IH.
        -- intros H. inversion H as [| ? ? ? ? Hh Ht]; subst.
           apply IH in Ht. injection Ht as <-. congruence.
    + split; [discriminate |].
      intros H. inversion H as [| ? ? ? ? Hh _]; subst. congruence.
Qed.

(** X24. [get_requirements] returns exactly when every file opens and
    every kept line parses, a kept line being one that, once stripped, is
    not empty and starts with neither ["#"] nor ["-f"]; what it returns is
    the parsed kept lines, in the order of the lines and of the files. *)
Theorem get_requirements_returns_iff (files : list string)
    (rs : list Requirement) :
  get_requirements strip Requirement_parse file_lines files = inr rs
  <-> exists contents,
        Forall2 (fun f lines => file_lines (requirement_path f) = Some lines)
                files contents /\
        Forall2 (fun p r => Requirement_parse p = Some r)
                (packages_of strip (concat contents)) rs.
Proof.
  unfold get_requirements. revert rs.
  induction files as [| f rest IH]; intros rs.
  - simpl. split.
    + intros H. injection H as <-. exists []. split; constructor.
    + intros (contents & Hc & Hr). inversion Hc; subst.
      simpl in Hr. now inversion Hr.
  - cbn [get_requirements_loop].
    destruct (file_lines (requirement_path f)) as [lines |] eqn:Hf.
    + destruct (read_lines lines []) as [e | rs1] eqn:Hread.
      * split; [discriminate |].
        intros (contents & Hc & Hr).
        inversion Hc as [| ? lines' ? contents' Hl Hc']; subst.
        assert (lines' = lines) as -> by congruence.
        simpl in Hr. rewrite packages_of_app in Hr.
        apply Forall2_app_inv_l in Hr.
        destruct Hr as (k1 & k2 & H1 & _ & _).
        apply read_packages_inr in H1. congruence.
      * rewrite get_requirements_loop_acc.
        apply read_packages_inr in Hread.
        destruct (read_files rest []) as [e | rs2] eqn:Hrest;
          simpl.
        -- split; [discriminate |].
           intros (contents & Hc & Hr).
           inversion Hc as [| ? lines' ? contents' Hl Hc']; subst.
           simpl in Hr. rewrite packages_of_app in Hr.
           apply Forall2_app_inv_l in Hr.
           destruct Hr as (k1 & k2 & _ & H2 & _).
           assert (Hex : inl e = inr k2); [| discriminate].
           apply IH. eauto.
        -- destruct (proj1 (IH rs2) eq_refl) as (contents & Hc & Hr).
           split.
           ++ intros H. injection H as <-.
              exists (lines :: contents). split; [now constructor |].
              simpl. rewrite packages_of_app. now apply Forall2_app.
           ++ intros (contents' & Hc' & Hr').
              inversion Hc' as [| ? lines' ? contents'' Hl Hc'']; subst.
              assert (lines' = lines) as -> by congruence.
              simpl in Hr'. rewrite packages_of_app in Hr'.
              apply Forall2_app_inv_l in Hr'.
              destruct Hr' as (k1 & k2 & H1 & H2 & ->).
              assert (Hk2 : inr rs2 = inr k2) by (apply IH; eauto).
              injection Hk2 as <-.
              f_equal. f_equal.
              clear -Hread H1. revert k1 H1.
              induction Hread as [| p r ps rs' Hp _ IHr]; intros k1 H1;
                inversion H1; subst; [reflexivity |].
              f_equal; [congruence | now apply IHr].
    + split; [discriminate |].
      intros (contents & Hc & _).
      inversion Hc as [| ? lines' ? contents' Hl _]; subst. congruence.
Qed.

End GetRequirementsFacts.
